(** * PeriodicTable: isotope data, lookup routes and layout geometry

    A shallow embedding of
    - [server/data/elements.ts]  ([buildQuarks], [buildIsotope], the
      Carbon and Fluorine entries of [elements]),
    - the Express routes [GET /api/elements/:symbol] and
      [GET /api/elements/:symbol/isotopes/:isotopeId],
    - the geometry computed by the React components [BohrModelView],
      [IsotopeVisualizer], [renderNucleusSwarm], [ParticleMist] and
      [buildParticleDescriptors],
    - [pickPalette] with its palette table, and the state of the
      [PeriodicTable] component with its event handlers.

    Numbers.  A JavaScript [number] that the code only ever uses as an
    integer (array lengths and indices, particle counts, pixel sizes built
    from them with [+], [-], [*], [Math.min], [Math.max]) is a [Z].  The
    others (everything downstream of a [/], of a decimal literal or of
    [Math.PI]) are exact rationals [Qc]: rounding of IEEE doubles is
    abstracted.  Exact rationals have no [Infinity] or [NaN], so the one
    operation that can leave them, a division by zero, is made explicit:
    [a /? b] is [None] when [b = 0].  A layout function that is proved to
    return [Some _] on every input therefore never evaluates such a
    division.

    Rendering.  A JSX node is represented by the numbers that its [style]
    attribute is built from; class names, React keys and the CSS text
    around the numbers are not modelled.

    Arrays.  [Array.from({ length: n })] is the list of its [n] indices
    ([seqZ 0 n], empty for [n <= 0]); the engine's limit on array lengths
    is not modelled. *)

From Stdlib Require Import ZArith QArith Qcanon Lia Ascii String.
From stdpp Require Import base option list numbers strings pretty.

Local Open Scope Z_scope.

(** ** Numbers *)

Definition number : Type := Qc.

(** An integer-valued JavaScript number used in rational arithmetic. *)
Definition num (z : Z) : number := Qc_of_Z z.

(** A decimal literal such as [0.12], given as [12 / 100]. *)
Definition decimal (n : Z) (d : positive) : number := Q2Qc (n # d).

(** The operator [/], with a zero divisor made observable. *)
Definition div (a b : number) : option number :=
  if decide (b = 0%Qc) then None else Some (a / b)%Qc.

Infix "/?" := div (at level 40, left associativity).

(** ** Data model ([types/chemistry], repeated in [elements.ts]) *)

Module BohrModel.
Record t := mk {
  shells : list Z;
  electronConfiguration : string;
  notes : option string;
}.
End BohrModel.

Module QuarkBreakdown.
Record t := mk {
  up : Z;
  down : Z;
}.
End QuarkBreakdown.

Module ParticleBreakdown.
Record t := mk {
  protons : Z;
  neutrons : Z;
  electrons : Z;
  quarks : QuarkBreakdown.t;
  positrons : option Z;
}.
End ParticleBreakdown.

Module Isotope.
Record t := mk {
  id : string;
  name : string;
  neutrons : Z;
  abundance : string;
  description : string;
  halfLife : option string;
  bohrModel : BohrModel.t;
  particleBreakdown : ParticleBreakdown.t;
}.
End Isotope.

Module Element.
Record t := mk {
  atomicNumber : Z;
  symbol : string;
  name : string;
  group : Z;
  period : Z;
  category : string;
  atomicMass : number;
  summary : string;
  appearance : option string;
  isotopes : list Isotope.t;
}.
End Element.

(** ** [BohrModelView] *)

(** One [span.bohr-electron]:
    [rotate(${rotate}deg) translateX(${translateX}px)]. *)
Record BohrElectron := {
  rotate : number;
  translateX : number;
}.

(** One [div.bohr-shell] with its electrons. *)
Record BohrShell := {
  width : number;
  height : number;
  animationDuration : Z;
  bohrElectrons : list BohrElectron;
}.

(** The constants of the component body and the rendered rings. *)
Record BohrLayout := {
  shellCount : Z;
  diagramSize : Z;
  nucleusSize : Z;
  nucleusRadius : number;
  orbitSpacing : number;
  bohrShells : list BohrShell;
}.

(** [xs.map((x, i) => ...)] visits the pairs [(i, x)]. *)
Definition entries {A} (xs : list A) : list (Z * A) :=
  imap (λ i x, (Z.of_nat i, x)) xs.

(** [Array.from({ length: n })], as the list of its indices. *)
Definition indices (n : Z) : list Z := seqZ 0 n.

Definition bohrElectron (radius : number) (electronCount electronIndex : Z)
  : option BohrElectron :=
  step ← num 360 /? num electronCount;
  Some {| rotate := (step * num electronIndex)%Qc; translateX := radius |}.

Definition bohrShell (nucleusRadius orbitSpacing : number)
    (entry : Z * Z) : option BohrShell :=
  let '(shellIndex, electronCount) := entry in
  let radius := (nucleusRadius + orbitSpacing * num (shellIndex + 1))%Qc in
  let duration := 14 + shellIndex * 5 in
  electrons ← mapM (bohrElectron radius electronCount) (indices electronCount);
  Some {| width := (radius * num 2)%Qc;
          height := (radius * num 2)%Qc;
          animationDuration := duration;
          bohrElectrons := electrons |}.

Definition BohrModelView (isotope : Isotope.t) : option BohrLayout :=
  let shells := BohrModel.shells (Isotope.bohrModel isotope) in
  let shellCount := Z.of_nat (length shells) in
  let diagramSize := Z.min 480 (300 + Z.max (shellCount - 3) 0 * 48) in
  let nucleusSize := Z.min 120 (Z.max 72 (54 + shellCount * 6)) in
  nucleusRadius ← num nucleusSize /? num 2;
  orbitSpacing ←
    (if decide (shellCount > 0)
     then half ← num diagramSize /? num 2;
          (half - num 20 - nucleusRadius)%Qc /? num shellCount
     else Some (num 0));
  rings ← mapM (bohrShell nucleusRadius orbitSpacing) (entries shells);
  Some {| shellCount := shellCount;
          diagramSize := diagramSize;
          nucleusSize := nucleusSize;
          nucleusRadius := nucleusRadius;
          orbitSpacing := orbitSpacing;
          bohrShells := rings |}.

(** ** [renderNucleusSwarm], [buildParticleDescriptors], [ParticleMist] *)

(** The members of the JavaScript [Math] object that the arena uses.
    They belong to the runtime, not to the repository, and their results
    are implementation-approximated: they are parameters of the model. *)
Class MathObject := {
  Math_PI : number;
  Math_sin : number → number;
  Math_cos : number → number;
}.

(** One [span.nucleus-particle]:
    [translate3d(${x}px, ${y}px, ${z}px)]. *)
Module NucleusParticle.
Record t := mk {
  background : string;
  x : number;
  y : number;
  z : number;
  animationDelay : number;
}.
End NucleusParticle.

Module ParticleDescriptor.
Record t := mk {
  color : string;
  delay : number;
  x : number;
  y : number;
  z : number;
}.
End ParticleDescriptor.

Section arena.
Context `{MathObject}.

Definition nucleusParticle (total index : Z) : option NucleusParticle.t :=
  ratio ← num index /? num total;
  let angle := (ratio * Math_PI * num 2)%Qc in
  let radius := num 24 in
  let depth := (Math_sin (num index) * num 10)%Qc in
  let isProton := bool_decide (Z.rem index 2 = 0) in
  Some {| NucleusParticle.background :=
            if isProton then "#fb7185" else "#38bdf8";
          NucleusParticle.x := (Math_cos angle * radius)%Qc;
          NucleusParticle.y := (Math_sin angle * radius)%Qc;
          NucleusParticle.z := depth;
          NucleusParticle.animationDelay :=
            (num index * decimal 12 100)%Qc |}.

Definition renderNucleusSwarm (protons neutrons : Z)
  : option (list NucleusParticle.t) :=
  let limit := 28 in
  let total := Z.min (protons + neutrons) limit in
  let nodes := indices total in
  mapM (nucleusParticle total) nodes.

Definition particleDescriptor (limit : Z) (color : string) (index : Z)
  : option ParticleDescriptor.t :=
  ratio ← num index /? num (Z.max limit 1);
  let angle := (ratio * Math_PI * num 2)%Qc in
  Some {| ParticleDescriptor.color := color;
          ParticleDescriptor.delay := (num index * decimal 18 100)%Qc;
          ParticleDescriptor.x := (Math_cos angle * num 110)%Qc;
          ParticleDescriptor.y := (Math_sin angle * num 90)%Qc;
          ParticleDescriptor.z :=
            (Math_sin (num index * decimal 15 10) * num 60)%Qc |}.

Definition buildParticleDescriptors (count : Z) (color : string)
  : option (list ParticleDescriptor.t) :=
  let limit := Z.min count 24 in
  mapM (particleDescriptor limit color) (indices limit).

(** The [span.quantum-cloud-particle] elements carry exactly the
    descriptor's [color], [delay], [x], [y] and [z]. *)
Definition ParticleMist (quarksUp quarksDown positrons : Z)
  : option (list ParticleDescriptor.t) :=
  up ← buildParticleDescriptors quarksUp "#c084fc";
  down ← buildParticleDescriptors quarksDown "#818cf8";
  posi ← buildParticleDescriptors positrons "#facc15";
  let descriptors := up ++ down ++ posi in
  Some descriptors.

(** The two sub-trees of [IsotopeVisualizer] that the arena's swarm and
    mist come from. *)
Definition arenaSwarm (isotope : Isotope.t) : option (list NucleusParticle.t) :=
  let particleBreakdown := Isotope.particleBreakdown isotope in
  renderNucleusSwarm (ParticleBreakdown.protons particleBreakdown)
                     (ParticleBreakdown.neutrons particleBreakdown).

Definition arenaMist (isotope : Isotope.t) : option (list ParticleDescriptor.t) :=
  let particleBreakdown := Isotope.particleBreakdown isotope in
  let quarks := ParticleBreakdown.quarks particleBreakdown in
  ParticleMist (QuarkBreakdown.up quarks) (QuarkBreakdown.down quarks)
               (default 0 (ParticleBreakdown.positrons particleBreakdown)).
End arena.

(** ** [buildQuarks], [buildIsotope] and the dataset *)

Definition buildQuarks (protons neutrons : Z) : QuarkBreakdown.t :=
  {| QuarkBreakdown.up := protons * 2 + neutrons;
     QuarkBreakdown.down := protons + neutrons * 2 |}.

(** [Pick<Element, "atomicNumber" | "symbol">] *)
Module ElementKey.
Record t := mk {
  atomicNumber : Z;
  symbol : string;
}.
End ElementKey.

(** [Omit<Isotope, "id" | "particleBreakdown"> & { positrons?: number }] *)
Module IsotopeOptions.
Record t := mk {
  name : string;
  neutrons : Z;
  abundance : string;
  description : string;
  halfLife : option string;
  bohrModel : BohrModel.t;
  positrons : option Z;
}.
End IsotopeOptions.

Definition buildIsotope (element : ElementKey.t) (options : IsotopeOptions.t)
  : Isotope.t :=
  let neutrons := IsotopeOptions.neutrons options in
  let positrons := default 0 (IsotopeOptions.positrons options) in
  let protons := ElementKey.atomicNumber element in
  let electrons := Z.max (protons - positrons) 0 in
  {| Isotope.id := ElementKey.symbol element +:+ "-" +:+ pretty (protons + neutrons);
     Isotope.name := IsotopeOptions.name options;
     Isotope.neutrons := neutrons;
     Isotope.abundance := IsotopeOptions.abundance options;
     Isotope.description := IsotopeOptions.description options;
     Isotope.halfLife := IsotopeOptions.halfLife options;
     Isotope.bohrModel := IsotopeOptions.bohrModel options;
     Isotope.particleBreakdown :=
       {| ParticleBreakdown.protons := protons;
          ParticleBreakdown.neutrons := neutrons;
          ParticleBreakdown.electrons := electrons;
          ParticleBreakdown.positrons := Some positrons;
          ParticleBreakdown.quarks := buildQuarks protons neutrons |} |}.

(** The entries of [elements] for Carbon and Fluorine; each isotope is
    named here, the source builds it in place inside [isotopes]. *)
Definition carbon12 : Isotope.t :=
  buildIsotope
    {| ElementKey.atomicNumber := 6; ElementKey.symbol := "C" |}
    {| IsotopeOptions.name := "Carbon-12";
       IsotopeOptions.neutrons := 6;
       IsotopeOptions.abundance := "98.93%";
       IsotopeOptions.description :=
         "Benchmark isotope defining the atomic mass unit. Its symmetric nucleus underpins organic molecules everywhere.";
       IsotopeOptions.halfLife := None;
       IsotopeOptions.positrons := None;
       IsotopeOptions.bohrModel :=
         {| BohrModel.shells := [2; 4];
            BohrModel.electronConfiguration := "1s2 2s2 2p2";
            BohrModel.notes := Some
              "Four valence electrons enable tetrahedral bonding that shapes hydrocarbons and diamond lattices." |} |}.

Definition carbon13 : Isotope.t :=
  buildIsotope
    {| ElementKey.atomicNumber := 6; ElementKey.symbol := "C" |}
    {| IsotopeOptions.name := "Carbon-13";
       IsotopeOptions.neutrons := 7;
       IsotopeOptions.abundance := "1.07%";
       IsotopeOptions.description :=
         "NMR-friendly isotope whose nuclear spin lets chemists map complex molecules with clarity.";
       IsotopeOptions.halfLife := None;
       IsotopeOptions.positrons := None;
       IsotopeOptions.bohrModel :=
         {| BohrModel.shells := [2; 4];
            BohrModel.electronConfiguration := "1s2 2s2 2p2";
            BohrModel.notes := Some
              "Slightly heavier core shifts vibrational spectra used to monitor metabolic pathways." |} |}.

Definition carbon14 : Isotope.t :=
  buildIsotope
    {| ElementKey.atomicNumber := 6; ElementKey.symbol := "C" |}
    {| IsotopeOptions.name := "Carbon-14";
       IsotopeOptions.neutrons := 8;
       IsotopeOptions.abundance := "Trace";
       IsotopeOptions.halfLife := Some "5730 years";
       IsotopeOptions.description :=
         "Radiocarbon isotope forged in the upper atmosphere. Archaeologists rely on its decay clock to date human history.";
       IsotopeOptions.positrons := None;
       IsotopeOptions.bohrModel :=
         {| BohrModel.shells := [2; 4];
            BohrModel.electronConfiguration := "1s2 2s2 2p2";
            BohrModel.notes := Some
              "Radioactive beta decay converts a neutron into a proton and electron, slowly transforming the atom into nitrogen." |} |}.

Definition carbon : Element.t :=
  {| Element.atomicNumber := 6;
     Element.symbol := "C";
     Element.name := "Carbon";
     Element.group := 14;
     Element.period := 2;
     Element.category := "polyatomic nonmetal";
     Element.atomicMass := decimal 12011 1000;
     Element.summary :=
       "Carbon constructs life, graphite, and dazzling diamonds. Its versatility stems from four valence electrons and tiny atomic size.";
     Element.appearance := None;
     Element.isotopes := [carbon12; carbon13; carbon14] |}.

Definition fluorine19 : Isotope.t :=
  buildIsotope
    {| ElementKey.atomicNumber := 9; ElementKey.symbol := "F" |}
    {| IsotopeOptions.name := "Fluorine-19";
       IsotopeOptions.neutrons := 10;
       IsotopeOptions.abundance := "100%";
       IsotopeOptions.description :=
         "The sole stable fluorine isotope. Its nuclear spin of 1/2 makes it a star in NMR spectroscopy.";
       IsotopeOptions.halfLife := None;
       IsotopeOptions.positrons := None;
       IsotopeOptions.bohrModel :=
         {| BohrModel.shells := [2; 7];
            BohrModel.electronConfiguration := "1s2 2s2 2p5";
            BohrModel.notes := Some
              "An almost-filled p shell drives fluorine's hunger for electrons and intense reactivity." |} |}.

Definition fluorine18 : Isotope.t :=
  buildIsotope
    {| ElementKey.atomicNumber := 9; ElementKey.symbol := "F" |}
    {| IsotopeOptions.name := "Fluorine-18";
       IsotopeOptions.neutrons := 9;
       IsotopeOptions.halfLife := Some "109.8 min";
       IsotopeOptions.abundance := "Synthetic";
       IsotopeOptions.description :=
         "Positron-emitting isotope essential for PET scans. It illuminates metabolic hotspots inside the human body.";
       IsotopeOptions.positrons := Some 1;
       IsotopeOptions.bohrModel :=
         {| BohrModel.shells := [2; 7];
            BohrModel.electronConfiguration := "1s2 2s2 2p5";
            BohrModel.notes := Some
              "During decay a positron emerges, quickly annihilating with an electron to produce diagnostic gamma rays." |} |}.

Definition fluorine : Element.t :=
  {| Element.atomicNumber := 9;
     Element.symbol := "F";
     Element.name := "Fluorine";
     Element.group := 17;
     Element.period := 2;
     Element.category := "halogen";
     Element.atomicMass := decimal 18998 1000;
     Element.summary :=
       "Fluorine is the most electronegative element, carving bonds in Teflon and powering tooth enamel via fluoride.";
     Element.appearance := None;
     Element.isotopes := [fluorine19; fluorine18] |}.

(** Uranium-238, the first isotope of the entry for Uranium. *)
Definition uranium238 : Isotope.t :=
  buildIsotope
    {| ElementKey.atomicNumber := 92; ElementKey.symbol := "U" |}
    {| IsotopeOptions.name := "Uranium-238";
       IsotopeOptions.neutrons := 146;
       IsotopeOptions.halfLife := Some "4.47 billion years";
       IsotopeOptions.abundance := "99.27%";
       IsotopeOptions.description :=
         "Dominant uranium isotope whose slow decay powers Earth's geothermal heat and dating methods.";
       IsotopeOptions.positrons := None;
       IsotopeOptions.bohrModel :=
         {| BohrModel.shells := [2; 8; 18; 32; 21; 9; 2];
            BohrModel.electronConfiguration := "[Rn] 5f3 6d1 7s2";
            BohrModel.notes := Some
              "High-mass nucleus sustains alpha decay chains spanning millions of years." |} |}.

(** ** The Express routes *)

(** [String.prototype.toLowerCase], a member of the runtime. *)
Class StringPrototype := {
  toLowerCase : string → string;
}.

(** What a route hands to [res.json]. *)
Inductive Json :=
  | JsonElement (element : Element.t)
  | JsonElementIsotope (element : Element.t) (isotope : Isotope.t)
  | JsonError (error : string).

(** The response object [res]; Express creates it with status 200 and
    nothing sent. *)
Module Response.
Record t := mk {
  statusCode : Z;
  sent : option Json;
}.
Definition fresh : t := {| statusCode := 200; sent := None |}.
Definition status (code : Z) (res : t) : t :=
  {| statusCode := code; sent := sent res |}.
Definition json (body : Json) (res : t) : t :=
  {| statusCode := statusCode res; sent := Some body |}.
End Response.

Section routes.
Context `{StringPrototype}.

(** The module-level constant [elements] that both handlers close over. *)
Variable elements : list Element.t.

(** [app.get("/api/elements/:symbol", ...)] with [req.params.symbol]. *)
Definition getElement (params_symbol : string) (res : Response.t) : Response.t :=
  let symbol := toLowerCase params_symbol in
  let element :=
    find (λ item, String.eqb (toLowerCase (Element.symbol item)) symbol) elements in
  match element with
  | None =>
      Response.json (JsonError ("Element '" +:+ params_symbol +:+ "' not found."))
        (Response.status 404 res)
  | Some element => Response.json (JsonElement element) res
  end.

(** [app.get("/api/elements/:symbol/isotopes/:isotopeId", ...)] with
    [req.params.symbol] and [req.params.isotopeId]. *)
Definition getIsotope (params_symbol params_isotopeId : string)
    (res : Response.t) : Response.t :=
  let symbol := toLowerCase params_symbol in
  let element :=
    find (λ item, String.eqb (toLowerCase (Element.symbol item)) symbol) elements in
  match element with
  | None =>
      Response.json (JsonError ("Element '" +:+ params_symbol +:+ "' not found."))
        (Response.status 404 res)
  | Some element =>
      let isotope :=
        find (λ item, String.eqb (toLowerCase (Isotope.id item))
                                 (toLowerCase params_isotopeId))
             (Element.isotopes element) in
      match isotope with
      | None =>
          Response.json
            (JsonError ("Isotope '" +:+ params_isotopeId +:+
                        "' not found for element '" +:+ params_symbol +:+ "'."))
            (Response.status 404 res)
      | Some isotope => Response.json (JsonElementIsotope element isotope) res
      end
  end.
End routes.

(** ** [pickPalette] and the palette table *)

(** [s.includes(search)]: [search] occurs in [s] as a contiguous run. *)
Fixpoint startsWith (s search : string) {struct search} : bool :=
  match search, s with
  | EmptyString, _ => true
  | String c search', String d s' => Ascii.eqb c d && startsWith s' search'
  | String _ _, EmptyString => false
  end.

Fixpoint includes (s search : string) : bool :=
  startsWith s search ||
  match s with
  | EmptyString => false
  | String _ rest => includes rest search
  end.

Module Palette.
Record t := mk {
  gradient : string * string * string;
  accent : string;
  shadow : string;
  ring : string;
}.
End Palette.

(** [Object.entries(categoryPalette)]: the entries in the order they are
    written in the object literal. *)
Definition categoryPalette : list (string * Palette.t) := [
  ("alkali metal",
   {| Palette.gradient := ("#fb923c", "#facc15", "#fef08a");
      Palette.accent := "#ea580c";
      Palette.shadow := "rgba(249, 115, 22, 0.45)";
      Palette.ring := "rgba(249, 115, 22, 0.35)" |});
  ("alkaline earth metal",
   {| Palette.gradient := ("#bef264", "#4ade80", "#34d399");
      Palette.accent := "#65a30d";
      Palette.shadow := "rgba(132, 204, 22, 0.45)";
      Palette.ring := "rgba(132, 204, 22, 0.35)" |});
  ("metalloid",
   {| Palette.gradient := ("#34d399", "#22d3ee", "#0ea5e9");
      Palette.accent := "#0f766e";
      Palette.shadow := "rgba(13, 148, 136, 0.45)";
      Palette.ring := "rgba(13, 148, 136, 0.35)" |});
  ("polyatomic nonmetal",
   {| Palette.gradient := ("#22d3ee", "#818cf8", "#c4b5fd");
      Palette.accent := "#2563eb";
      Palette.shadow := "rgba(59, 130, 246, 0.45)";
      Palette.ring := "rgba(59, 130, 246, 0.35)" |});
  ("diatomic nonmetal",
   {| Palette.gradient := ("#38bdf8", "#c084fc", "#f472b6");
      Palette.accent := "#0284c7";
      Palette.shadow := "rgba(14, 165, 233, 0.45)";
      Palette.ring := "rgba(14, 165, 233, 0.35)" |});
  ("transition metal",
   {| Palette.gradient := ("#d1d5db", "#9ca3af", "#6b7280");
      Palette.accent := "#374151";
      Palette.shadow := "rgba(107, 114, 128, 0.45)";
      Palette.ring := "rgba(107, 114, 128, 0.35)" |});
  ("halogen",
   {| Palette.gradient := ("#f472b6", "#fb7185", "#fca5a5");
      Palette.accent := "#db2777";
      Palette.shadow := "rgba(244, 114, 182, 0.45)";
      Palette.ring := "rgba(244, 114, 182, 0.35)" |});
  ("noble gas",
   {| Palette.gradient := ("#8b5cf6", "#6366f1", "#60a5fa");
      Palette.accent := "#4338ca";
      Palette.shadow := "rgba(99, 102, 241, 0.45)";
      Palette.ring := "rgba(99, 102, 241, 0.35)" |});
  ("post-transition metal",
   {| Palette.gradient := ("#cbd5f5", "#e0e7ff", "#f5f3ff");
      Palette.accent := "#475569";
      Palette.shadow := "rgba(148, 163, 184, 0.35)";
      Palette.ring := "rgba(148, 163, 184, 0.35)" |})
].

Definition defaultPalette : Palette.t :=
  {| Palette.gradient := ("#e2e8f0", "#f8fafc", "#ffffff");
     Palette.accent := "#1e293b";
     Palette.shadow := "rgba(100, 116, 139, 0.35)";
     Palette.ring := "rgba(100, 116, 139, 0.25)" |}.

(** The [for ... of] loop of [pickPalette], over the entries still to visit. *)
Fixpoint pickPaletteFrom (lower : string) (entries : list (string * Palette.t))
  : Palette.t :=
  match entries with
  | [] => defaultPalette
  | (key, palette) :: rest =>
      if includes lower key then palette else pickPaletteFrom lower rest
  end.

Definition pickPalette `{StringPrototype} (category : string) : Palette.t :=
  let lower := toLowerCase category in
  pickPaletteFrom lower categoryPalette.

(** ** [IsotopeVisualizer] *)

(** [Math.min] on two numbers that need not be integers. *)
Definition Math_min (a b : number) : number :=
  if decide (a ≤ b)%Qc then a else b.

(** One [span.quantum-electron]. *)
Module QuantumElectron.
Record t := mk {
  rotate : number;
  translateX : number;
}.
End QuantumElectron.

(** One [div.quantum-orbit] with its electrons. *)
Module QuantumOrbit.
Record t := mk {
  width : number;
  height : number;
  animationDuration : Z;
  electrons : list QuantumElectron.t;
}.
End QuantumOrbit.

(** The five [DataRow]s under the arena; the quark row shows both counts. *)
Module DataRows.
Record t := mk {
  protons : Z;
  neutrons : Z;
  electrons : Z;
  quarksUp : Z;
  quarksDown : Z;
  positrons : Z;
}.
End DataRows.

Module QuantumArena.
Record t := mk {
  stageSize : Z;
  arenaHeight : Z;
  nucleusSize : number;
  nucleusRadius : number;
  orbitSpacing : number;
  orbitRadii : list number;
  swarm : list NucleusParticle.t;
  orbits : list QuantumOrbit.t;
  mist : list ParticleDescriptor.t;
  rows : DataRows.t;
}.
End QuantumArena.

Definition quantumElectron (radius : number) (electrons electronIndex : Z)
  : option QuantumElectron.t :=
  step ← num 360 /? num electrons;
  Some {| QuantumElectron.rotate := (step * num electronIndex)%Qc;
          QuantumElectron.translateX := radius |}.

(** [shells[index]] is [undefined] past the end, and
    [Array.from({ length: undefined })] is empty. *)
Definition quantumOrbit (shells : list Z) (entry : Z * number)
  : option QuantumOrbit.t :=
  let '(index, radius) := entry in
  let electrons := shells !! Z.to_nat index in
  spans ← match electrons with
          | Some electrons =>
              mapM (quantumElectron radius electrons) (indices electrons)
          | None => Some []
          end;
  Some {| QuantumOrbit.width := (radius * num 2)%Qc;
          QuantumOrbit.height := (radius * num 2)%Qc;
          QuantumOrbit.animationDuration := 18 + index * 6;
          QuantumOrbit.electrons := spans |}.

Section visualizer.
Context `{MathObject}.

Definition IsotopeVisualizer (isotope : Isotope.t) : option QuantumArena.t :=
  let particleBreakdown := Isotope.particleBreakdown isotope in
  let shells := BohrModel.shells (Isotope.bohrModel isotope) in
  let shellCount := Z.of_nat (length shells) in
  let stageSize := Z.min 460 (360 + Z.max (shellCount - 3) 0 * 42) in
  let arenaHeight := stageSize + 100 in
  let nucleusSize :=
    Math_min (num 150)
      (num 120 + num (Z.min (ParticleBreakdown.protons particleBreakdown) 60)
                 * decimal 35 100)%Qc in
  nucleusRadius ← nucleusSize /? num 2;
  orbitSpacing ←
    (if decide (shellCount > 0)
     then half ← num stageSize /? num 2;
          (half - nucleusRadius - num 36)%Qc /? num shellCount
     else Some (num 0));
  let orbitRadii :=
    imap (λ index _, (nucleusRadius + orbitSpacing * num (Z.of_nat index + 1))%Qc)
         shells in
  swarm ← renderNucleusSwarm (ParticleBreakdown.protons particleBreakdown)
                             (ParticleBreakdown.neutrons particleBreakdown);
  orbits ← mapM (quantumOrbit shells) (entries orbitRadii);
  mist ← ParticleMist
           (QuarkBreakdown.up (ParticleBreakdown.quarks particleBreakdown))
           (QuarkBreakdown.down (ParticleBreakdown.quarks particleBreakdown))
           (default 0 (ParticleBreakdown.positrons particleBreakdown));
  Some {| QuantumArena.stageSize := stageSize;
          QuantumArena.arenaHeight := arenaHeight;
          QuantumArena.nucleusSize := nucleusSize;
          QuantumArena.nucleusRadius := nucleusRadius;
          QuantumArena.orbitSpacing := orbitSpacing;
          QuantumArena.orbitRadii := orbitRadii;
          QuantumArena.swarm := swarm;
          QuantumArena.orbits := orbits;
          QuantumArena.mist := mist;
          QuantumArena.rows :=
            {| DataRows.protons := ParticleBreakdown.protons particleBreakdown;
               DataRows.neutrons := ParticleBreakdown.neutrons particleBreakdown;
               DataRows.electrons := ParticleBreakdown.electrons particleBreakdown;
               DataRows.quarksUp :=
                 QuarkBreakdown.up (ParticleBreakdown.quarks particleBreakdown);
               DataRows.quarksDown :=
                 QuarkBreakdown.down (ParticleBreakdown.quarks particleBreakdown);
               DataRows.positrons :=
                 default 0 (ParticleBreakdown.positrons particleBreakdown) |} |}.
End visualizer.

(** ** The state of the [PeriodicTable] component *)

(** [Array.prototype.sort] with a comparator, a member of the runtime. *)
Class ArrayPrototype := {
  Array_sort : (Element.t → Element.t → Z) → list Element.t → list Element.t;
}.

Module Table.
(** The five [useState] cells. *)
Record State := mk {
  elements : list Element.t;
  loading : bool;
  error : option string;
  activeElement : option Element.t;
  activeIsotope : option Isotope.t;
}.

Definition initial : State :=
  {| elements := []; loading := true; error := None;
     activeElement := None; activeIsotope := None |}.

(** What can happen to the component: the [fetchElements] promise settles
    (rejected with an [Error] carrying a message, or with something else),
    a tile is clicked, the modal's close button is clicked, an isotope
    button of the modal is clicked. *)
Inductive Event :=
  | FetchResolved (data : list Element.t)
  | FetchRejected (message : option string)
  | TileClick (element : Element.t)
  | ModalClose
  | IsotopeSelect (isotope : Isotope.t).

(** A string or [null] used as a condition: [null] and the empty string
    are falsy. *)
Definition truthy (value : option string) : bool :=
  match value with
  | None => false
  | Some text => negb (String.eqb text "")
  end.

(** [!loading && !error]: the grid of tiles is rendered. *)
Definition gridShown (state : State) : bool :=
  negb (loading state) && negb (truthy (error state)).

(** [activeElement && activeIsotope]: the modal is rendered. *)
Definition modalShown (state : State) : bool :=
  match activeElement state, activeIsotope state with
  | Some _, Some _ => true
  | _, _ => false
  end.

Section handlers.
Context `{ArrayPrototype}.

Definition handle (event : Event) (state : State) : State :=
  match event with
  | FetchResolved data =>
      {| elements :=
           Array_sort (λ a b, Element.atomicNumber a - Element.atomicNumber b) data;
         loading := false;
         error := error state;
         activeElement := activeElement state;
         activeIsotope := activeIsotope state |}
  | FetchRejected message =>
      {| elements := elements state;
         loading := false;
         error := Some (default "Unable to load periodic data." message);
         activeElement := activeElement state;
         activeIsotope := activeIsotope state |}
  | TileClick element =>
      {| elements := elements state;
         loading := loading state;
         error := error state;
         activeElement := Some element;
         activeIsotope := Element.isotopes element !! 0%nat |}
  | ModalClose =>
      {| elements := elements state;
         loading := loading state;
         error := error state;
         activeElement := None;
         activeIsotope := None |}
  | IsotopeSelect isotope =>
      {| elements := elements state;
         loading := loading state;
         error := error state;
         activeElement := activeElement state;
         activeIsotope := Some isotope |}
  end.

(** The events that can occur in a state.  The effect starts one fetch on
    mount, and [loading] is true until its promise settles.  A tile exists
    for each loaded element while the grid is shown; the close button and
    one button per isotope of the active element exist while the modal is
    shown. *)
Definition offered (state : State) (event : Event) : Prop :=
  match event with
  | FetchResolved _ | FetchRejected _ => loading state = true
  | TileClick element => gridShown state = true ∧ element ∈ elements state
  | ModalClose => modalShown state = true
  | IsotopeSelect isotope =>
      modalShown state = true ∧
      ∃ element, activeElement state = Some element ∧
                 isotope ∈ Element.isotopes element
  end.

(** The states the component can be in. *)
Inductive reachable : State → Prop :=
  | reachable_initial : reachable initial
  | reachable_step state event :
      reachable state → offered state event → reachable (handle event state).
End handlers.
End Table.

(** ** A runtime and inputs to evaluate examples with

    Lower-casing of the letters [A]..[Z], which is what [toLowerCase] does
    on ASCII text, and polynomial approximations of sine and cosine. *)

Definition lowerAscii (c : ascii) : ascii :=
  let n := N_of_ascii c in
  if ((65 <=? n) && (n <=? 90))%N then ascii_of_N (n + 32) else c.

Fixpoint lowerString (s : string) : string :=
  match s with
  | EmptyString => EmptyString
  | String c rest => String (lowerAscii c) (lowerString rest)
  end.

Definition asciiStrings : StringPrototype := {| toLowerCase := lowerString |}.

Definition taylorMath : MathObject :=
  {| Math_PI := decimal 355 113;
     Math_sin := λ x, (x - x * x * x * decimal 1 6)%Qc;
     Math_cos := λ x, (Q2Qc 1 - x * x * decimal 1 2)%Qc |}.

(** A stable sort by insertion: [compare a b <= 0] keeps [a] before [b]. *)
Fixpoint insertSorted (compare : Element.t → Element.t → Z)
    (x : Element.t) (sorted : list Element.t) : list Element.t :=
  match sorted with
  | [] => [x]
  | y :: rest =>
      if compare x y <=? 0 then x :: y :: rest
      else y :: insertSorted compare x rest
  end.

Definition insertionSort : ArrayPrototype :=
  {| Array_sort := λ compare data, foldr (insertSorted compare) [] data |}.

(** Inputs that are not in the dataset: an isotope with the given shells,
    and a hydrogen key with options that declare two positrons. *)
Definition isotopeWithShells (shells : list Z) : Isotope.t :=
  buildIsotope
    {| ElementKey.atomicNumber := 1; ElementKey.symbol := "H" |}
    {| IsotopeOptions.name := "Sample";
       IsotopeOptions.neutrons := 0;
       IsotopeOptions.abundance := "";
       IsotopeOptions.description := "";
       IsotopeOptions.halfLife := None;
       IsotopeOptions.positrons := None;
       IsotopeOptions.bohrModel :=
         {| BohrModel.shells := shells;
            BohrModel.electronConfiguration := "";
            BohrModel.notes := None |} |}.

Definition hydrogenKey : ElementKey.t :=
  {| ElementKey.atomicNumber := 1; ElementKey.symbol := "H" |}.

Definition twoPositrons : IsotopeOptions.t :=
  {| IsotopeOptions.name := "Hydrogen-1";
     IsotopeOptions.neutrons := 0;
     IsotopeOptions.abundance := "";
     IsotopeOptions.description := "";
     IsotopeOptions.halfLife := None;
     IsotopeOptions.positrons := Some 2;
     IsotopeOptions.bohrModel :=
       {| BohrModel.shells := [1];
          BohrModel.electronConfiguration := "1s1";
          BohrModel.notes := None |} |}.

(** * Proofs *)

(** ** Numbers and checked division *)

Lemma num_nonzero (z : Z) : z ≠ 0 → num z ≠ 0%Qc.
Proof.
  intros Hz Heq. apply Hz, Z2Qc_inj. unfold num in Heq. by rewrite Heq, Z2Qc_inj_0.
Qed.

Lemma div_defined (a b : number) : b ≠ 0%Qc → a /? b = Some (a / b)%Qc.
Proof. intros Hb. unfold div. by destruct (decide (b = 0%Qc)). Qed.

Lemma div_num (a : number) (z : Z) : z ≠ 0 → a /? num z = Some (a / num z)%Qc.
Proof. intros Hz. by apply div_defined, num_nonzero. Qed.

Lemma div_zero (a : number) : a /? num 0 = None.
Proof. unfold div, num. rewrite Z2Qc_inj_0. by destruct (decide (0 = 0)%Qc). Qed.

(** ** Lists: [mapM] of a function that succeeds on every element *)

Lemma mapM_defined {A B} (f : A → option B) (g : A → B) (l : list A) :
  (∀ x, x ∈ l → f x = Some (g x)) → mapM f l = Some (g <$> l).
Proof.
  induction l as [|x l IH]; intros Hf; [done|].
  cbn. rewrite (Hf x) by left. cbn.
  rewrite IH; [done|]. intros y Hy. apply Hf. by right.
Qed.

Lemma elem_of_indices (n k : Z) : k ∈ indices n ↔ 0 ≤ k < n.
Proof.
  unfold indices. rewrite list_elem_of_lookup. split.
  - intros [i Hi]. apply lookup_seqZ in Hi. lia.
  - intros Hk. exists (Z.to_nat k). apply lookup_seqZ. lia.
Qed.

Lemma length_indices (n : Z) : length (indices n) = Z.to_nat n.
Proof. apply length_seqZ. Qed.

Lemma lookup_indices (n : Z) (i : nat) (k : Z) :
  indices n !! i = Some k ↔ k = Z.of_nat i ∧ Z.of_nat i < n.
Proof. unfold indices. rewrite lookup_seqZ. by rewrite Z.add_0_l. Qed.

Lemma lookup_entries {A} (xs : list A) (i : nat) :
  entries xs !! i = (λ x, (Z.of_nat i, x)) <$> xs !! i.
Proof. unfold entries. by rewrite list_lookup_imap. Qed.

Lemma length_entries {A} (xs : list A) : length (entries xs) = length xs.
Proof. unfold entries. apply length_imap. Qed.

(** ** [BohrModelView]: every division is defined, and the closed form *)

Lemma bohrElectrons_defined (radius : number) (n : Z) :
  mapM (bohrElectron radius n) (indices n) =
  Some ((λ k, {| rotate := (num 360 / num n * num k)%Qc; translateX := radius |})
          <$> indices n).
Proof.
  apply mapM_defined. intros k Hk%elem_of_indices.
  unfold bohrElectron. by rewrite div_num by lia.
Qed.

Lemma bohrShell_defined (nr os : number) (i n : Z) :
  bohrShell nr os (i, n) =
  Some (let radius := (nr + os * num (i + 1))%Qc in
        {| width := (radius * num 2)%Qc;
           height := (radius * num 2)%Qc;
           animationDuration := 14 + i * 5;
           bohrElectrons :=
             (λ k, {| rotate := (num 360 / num n * num k)%Qc; translateX := radius |})
               <$> indices n |}).
Proof. unfold bohrShell. by rewrite bohrElectrons_defined. Qed.

Lemma BohrModelView_defined (isotope : Isotope.t) :
  let shells := BohrModel.shells (Isotope.bohrModel isotope) in
  let n := Z.of_nat (length shells) in
  let size := Z.min 480 (300 + Z.max (n - 3) 0 * 48) in
  let nucleus := Z.min 120 (Z.max 72 (54 + n * 6)) in
  let nr := (num nucleus / num 2)%Qc in
  let os := if decide (n > 0)
            then ((num size / num 2 - num 20 - nr) / num n)%Qc else num 0 in
  BohrModelView isotope =
  Some {| shellCount := n; diagramSize := size; nucleusSize := nucleus;
          nucleusRadius := nr; orbitSpacing := os;
          bohrShells :=
            (λ entry, let radius := (nr + os * num (entry.1 + 1))%Qc in
               {| width := (radius * num 2)%Qc;
                  height := (radius * num 2)%Qc;
                  animationDuration := 14 + entry.1 * 5;
                  bohrElectrons :=
                    (λ k, {| rotate := (num 360 / num entry.2 * num k)%Qc;
                             translateX := radius |}) <$> indices entry.2 |})
              <$> entries shells |}.
Proof.
  intros shells n size nucleus nr os. unfold BohrModelView.
  fold shells. fold n. fold size. fold nucleus.
  rewrite !(div_num _ 2) by done. cbn. fold nr.
  assert (Hos : (if decide (n > 0)
                 then (num size / num 2 - num 20 - nr)%Qc /? num n
                 else Some (num 0)) = Some os).
  { unfold os. destruct (decide (n > 0)); [|done]. by rewrite div_num by lia. }
  rewrite Hos. cbn.
  erewrite mapM_defined; [done|].
  intros [i k] _. by rewrite bohrShell_defined.
Qed.

(** The layout always exists: no division by zero is ever evaluated. *)
Lemma BohrModelView_total (isotope : Isotope.t) :
  ∃ layout, BohrModelView isotope = Some layout.
Proof. eexists. apply BohrModelView_defined. Qed.

Lemma BohrModelView_constants (isotope : Isotope.t) (layout : BohrLayout) :
  BohrModelView isotope = Some layout →
  let n := Z.of_nat (length (BohrModel.shells (Isotope.bohrModel isotope))) in
  shellCount layout = n ∧
  diagramSize layout = Z.min 480 (300 + Z.max (n - 3) 0 * 48) ∧
  nucleusSize layout = Z.min 120 (Z.max 72 (54 + n * 6)) ∧
  nucleusRadius layout = (num (nucleusSize layout) / num 2)%Qc ∧
  orbitSpacing layout =
    if decide (n > 0)
    then ((num (diagramSize layout) / num 2 - num 20 - nucleusRadius layout)
          / num n)%Qc
    else num 0.
Proof.
  rewrite BohrModelView_defined. intros [= <-]. by cbn.
Qed.

(** The ring rendered for the shell at index [i]. *)
Lemma BohrModelView_ring (isotope : Isotope.t) (layout : BohrLayout)
    (i : nat) (n : Z) :
  BohrModelView isotope = Some layout →
  BohrModel.shells (Isotope.bohrModel isotope) !! i = Some n →
  bohrShells layout !! i =
  Some (let radius := (nucleusRadius layout
                       + orbitSpacing layout * num (Z.of_nat i + 1))%Qc in
        {| width := (radius * num 2)%Qc;
           height := (radius * num 2)%Qc;
           animationDuration := 14 + Z.of_nat i * 5;
           bohrElectrons :=
             (λ k, {| rotate := (num 360 / num n * num k)%Qc; translateX := radius |})
               <$> indices n |}).
Proof.
  rewrite BohrModelView_defined. intros [= <-] Hn. cbn.
  by rewrite list_lookup_fmap, lookup_entries, Hn.
Qed.

Lemma BohrModelView_length (isotope : Isotope.t) (layout : BohrLayout) :
  BohrModelView isotope = Some layout →
  length (bohrShells layout) = length (BohrModel.shells (Isotope.bohrModel isotope)).
Proof.
  rewrite BohrModelView_defined. intros [= <-]. cbn.
  by rewrite length_fmap, length_entries.
Qed.

Lemma BohrModelView_duration (isotope : Isotope.t) (layout : BohrLayout)
    (i : nat) (ring : BohrShell) :
  BohrModelView isotope = Some layout →
  bohrShells layout !! i = Some ring →
  animationDuration ring = 14 + Z.of_nat i * 5.
Proof.
  intros Hview Hring.
  destruct (BohrModel.shells (Isotope.bohrModel isotope) !! i) as [n|] eqn:Hn.
  - rewrite (BohrModelView_ring _ _ _ _ Hview Hn) in Hring. by injection Hring as <-.
  - apply lookup_ge_None in Hn. apply lookup_lt_Some in Hring.
    rewrite (BohrModelView_length _ _ Hview) in Hring. lia.
Qed.

(** Angles [(360 / n) * k] start at 0 and advance by [360 / n]. *)
Lemma angle_start (n : Z) : (num 360 / num n * num 0)%Qc = 0%Qc.
Proof. unfold num. rewrite Z2Qc_inj_0. ring. Qed.

Lemma angle_step (n k : Z) :
  (num 360 / num n * num (k + 1) - num 360 / num n * num k)%Qc
  = (num 360 / num n)%Qc.
Proof. unfold num. rewrite Z2Qc_inj_add, Z2Qc_inj_1. ring. Qed.

(** ** The claims about [BohrModelView] *)

(** C1. For every shell sequence the Bohr model view computes
    [nucleusSize = min(120, max(72, 54 + shellCount * 6))],
    [nucleusRadius = nucleusSize / 2], and
    [orbitSpacing = (diagramSize / 2 - 20 - nucleusRadius) / shellCount]
    when [shellCount > 0], and [0] when [shellCount = 0]. *)
Theorem C1_nucleus_size_and_orbit_spacing (isotope : Isotope.t) :
  let n := Z.of_nat (length (BohrModel.shells (Isotope.bohrModel isotope))) in
  ∃ layout, BohrModelView isotope = Some layout ∧
    shellCount layout = n ∧
    nucleusSize layout = Z.min 120 (Z.max 72 (54 + n * 6)) ∧
    nucleusRadius layout = (num (nucleusSize layout) / num 2)%Qc ∧
    (n > 0 →
       orbitSpacing layout =
       ((num (diagramSize layout) / num 2 - num 20 - nucleusRadius layout)
        / num n)%Qc) ∧
    (n = 0 → orbitSpacing layout = num 0).
Proof.
  intros n. destruct (BohrModelView_total isotope) as [layout Hview].
  exists layout. split; [done|].
  destruct (BohrModelView_constants _ _ Hview) as (Hc & _ & Hs & Hr & Ho).
  fold n in Hc, Hs, Ho. repeat split; try done.
  - intros Hpos. rewrite Ho. by destruct (decide (n > 0)).
  - intros Hzero. rewrite Ho. destruct (decide (n > 0)); [lia|done].
Qed.

(** C2. For every shell sequence and every 0-based shell index [i], the
    ring of that shell has radius [nucleusRadius + orbitSpacing * (i + 1)]
    (its box is twice that wide and high); a shell holding [n >= 1]
    electrons yields exactly [n] electrons, the one at index [k] rotated by
    [(360 / n) * k] degrees and pushed out to the ring's radius, so the
    angles start at 0 and advance by [360 / n]; the rotation period is
    [14 + i * 5] seconds, strictly increasing with the shell index. *)
Theorem C2_ring_radius_angles_period (isotope : Isotope.t) :
  let shells := BohrModel.shells (Isotope.bohrModel isotope) in
  ∃ layout, BohrModelView isotope = Some layout ∧
    length (bohrShells layout) = length shells ∧
    (∀ (i : nat) (n : Z), shells !! i = Some n →
       ∃ ring, bohrShells layout !! i = Some ring ∧
         let radius := (nucleusRadius layout
                        + orbitSpacing layout * num (Z.of_nat i + 1))%Qc in
         width ring = (radius * num 2)%Qc ∧
         height ring = (radius * num 2)%Qc ∧
         animationDuration ring = 14 + Z.of_nat i * 5 ∧
         (1 ≤ n →
            Z.of_nat (length (bohrElectrons ring)) = n ∧
            (∀ k : nat, Z.of_nat k < n →
               ∃ e, bohrElectrons ring !! k = Some e ∧
                 rotate e = (num 360 / num n * num (Z.of_nat k))%Qc ∧
                 translateX e = radius) ∧
            (∀ e, bohrElectrons ring !! 0%nat = Some e → rotate e = 0%Qc) ∧
            (∀ (k : nat) e e', bohrElectrons ring !! k = Some e →
               bohrElectrons ring !! S k = Some e' →
               (rotate e' - rotate e)%Qc = (num 360 / num n)%Qc))) ∧
    (∀ (i j : nat) ri rj, (i < j)%nat →
       bohrShells layout !! i = Some ri → bohrShells layout !! j = Some rj →
       animationDuration ri < animationDuration rj).
Proof.
  intros shells. destruct (BohrModelView_total isotope) as [layout Hview].
  exists layout. split; [done|]. split; [by apply BohrModelView_length|]. split.
  - intros i n Hn. eexists. split; [exact (BohrModelView_ring _ _ _ _ Hview Hn)|]. cbn.
    repeat split.
    + rewrite length_fmap, length_indices. lia.
    + intros k Hk. eexists. rewrite list_lookup_fmap.
      rewrite (proj2 (lookup_indices n k (Z.of_nat k))) by done. by cbn.
    + intros e. rewrite list_lookup_fmap.
      destruct (indices n !! 0%nat) as [k|] eqn:Hk; [|done].
      apply lookup_indices in Hk as [-> _]. intros [= <-]. cbn. apply angle_start.
    + intros k e e'. rewrite !list_lookup_fmap.
      destruct (indices n !! k) as [a|] eqn:Ha; [|done].
      destruct (indices n !! S k) as [b|] eqn:Hb; [|done].
      apply lookup_indices in Ha as [-> _]. apply lookup_indices in Hb as [-> _].
      intros [= <-] [= <-]. cbn.
      replace (Z.of_nat (S k)) with (Z.of_nat k + 1) by lia. apply angle_step.
  - intros i j ri rj Hij Hi Hj.
    rewrite (BohrModelView_duration _ _ _ _ Hview Hi).
    rewrite (BohrModelView_duration _ _ _ _ Hview Hj). lia.
Qed.

(** C3. For every shell count, [diagramSize] is
    [min(480, 300 + max(shellCount - 3, 0) * 48)]; hence it never exceeds
    480 and never decreases when the shell count grows. *)
Theorem C3_diagram_size_capped_monotone :
  (∀ isotope : Isotope.t,
     let n := Z.of_nat (length (BohrModel.shells (Isotope.bohrModel isotope))) in
     ∃ layout, BohrModelView isotope = Some layout ∧
       diagramSize layout = Z.min 480 (300 + Z.max (n - 3) 0 * 48) ∧
       diagramSize layout ≤ 480) ∧
  (∀ (isotope isotope' : Isotope.t) layout layout',
     BohrModelView isotope = Some layout →
     BohrModelView isotope' = Some layout' →
     (length (BohrModel.shells (Isotope.bohrModel isotope))
      ≤ length (BohrModel.shells (Isotope.bohrModel isotope')))%nat →
     diagramSize layout ≤ diagramSize layout').
Proof.
  split.
  - intros isotope n. destruct (BohrModelView_total isotope) as [layout Hview].
    exists layout. split; [done|].
    destruct (BohrModelView_constants _ _ Hview) as (_ & Hd & _).
    fold n in Hd. split; [done|]. lia.
  - intros isotope isotope' layout layout' Hview Hview' Hle.
    destruct (BohrModelView_constants _ _ Hview) as (_ & -> & _).
    destruct (BohrModelView_constants _ _ Hview') as (_ & -> & _).
    lia.
Qed.

(** C4. The layout computation never fails on degenerate input: it is
    defined for every isotope (so no division by zero is evaluated); with
    no shells [orbitSpacing] is 0 and no ring is produced; a shell entry of
    0 electrons yields a ring with an empty electron list. *)
Theorem C4_degenerate_input_is_safe :
  (∀ isotope : Isotope.t, is_Some (BohrModelView isotope)) ∧
  (∀ isotope : Isotope.t,
     BohrModel.shells (Isotope.bohrModel isotope) = [] →
     ∃ layout, BohrModelView isotope = Some layout ∧
       shellCount layout = 0 ∧
       orbitSpacing layout = num 0 ∧
       bohrShells layout = []) ∧
  (∀ (isotope : Isotope.t) (i : nat),
     BohrModel.shells (Isotope.bohrModel isotope) !! i = Some 0 →
     ∃ layout ring, BohrModelView isotope = Some layout ∧
       bohrShells layout !! i = Some ring ∧
       bohrElectrons ring = []).
Proof.
  split; [|split].
  - intros isotope. destruct (BohrModelView_total isotope) as [layout ->]. by eexists.
  - intros isotope Hnil. destruct (BohrModelView_total isotope) as [layout Hview].
    exists layout. split; [done|].
    destruct (BohrModelView_constants _ _ Hview) as (Hc & _ & _ & _ & Ho).
    pose proof (BohrModelView_length _ _ Hview) as Hlen.
    rewrite Hnil in Hc, Ho, Hlen. cbn in Hc, Ho, Hlen.
    repeat split; [done|done|]. by destruct (bohrShells layout).
  - intros isotope i Hzero. destruct (BohrModelView_total isotope) as [layout Hview].
    exists layout. eexists. split; [done|].
    split; [exact (BohrModelView_ring _ _ _ _ Hview Hzero)|]. done.
Qed.

(** ** The quantum arena: nucleus swarm and particle mist *)

Section arena_proofs.
Context `{MathObject}.

(** The angle of the source, [ratio * Math.PI * 2], is [ratio * 2π]. *)
Lemma angle_two_pi (ratio : number) :
  (ratio * Math_PI * num 2)%Qc = (ratio * (num 2 * Math_PI))%Qc.
Proof. ring. Qed.

Lemma particleDescriptor_defined (limit : Z) (color : string) (index : Z) :
  0 ≤ index < limit →
  particleDescriptor limit color index =
  Some (let angle := (num index / num limit * (num 2 * Math_PI))%Qc in
        {| ParticleDescriptor.color := color;
           ParticleDescriptor.delay := (num index * decimal 18 100)%Qc;
           ParticleDescriptor.x := (Math_cos angle * num 110)%Qc;
           ParticleDescriptor.y := (Math_sin angle * num 90)%Qc;
           ParticleDescriptor.z :=
             (Math_sin (num index * decimal 15 10) * num 60)%Qc |}).
Proof.
  intros Hindex. unfold particleDescriptor.
  rewrite Z.max_l by lia. rewrite div_num by lia. cbn.
  by rewrite angle_two_pi.
Qed.

Lemma buildParticleDescriptors_defined (count : Z) (color : string) :
  buildParticleDescriptors count color =
  Some ((λ index,
           let angle :=
             (num index / num (Z.min count 24) * (num 2 * Math_PI))%Qc in
           {| ParticleDescriptor.color := color;
              ParticleDescriptor.delay := (num index * decimal 18 100)%Qc;
              ParticleDescriptor.x := (Math_cos angle * num 110)%Qc;
              ParticleDescriptor.y := (Math_sin angle * num 90)%Qc;
              ParticleDescriptor.z :=
                (Math_sin (num index * decimal 15 10) * num 60)%Qc |})
          <$> indices (Z.min count 24)).
Proof.
  unfold buildParticleDescriptors. apply mapM_defined.
  intros index Hindex%elem_of_indices. by apply particleDescriptor_defined.
Qed.

Lemma nucleusParticle_defined (total index : Z) :
  0 ≤ index < total →
  nucleusParticle total index =
  Some (let angle := (num index / num total * (num 2 * Math_PI))%Qc in
        {| NucleusParticle.background :=
             if Z.even index then "#fb7185" else "#38bdf8";
           NucleusParticle.x := (Math_cos angle * num 24)%Qc;
           NucleusParticle.y := (Math_sin angle * num 24)%Qc;
           NucleusParticle.z := (Math_sin (num index) * num 10)%Qc;
           NucleusParticle.animationDelay := (num index * decimal 12 100)%Qc |}).
Proof.
  intros Hindex. unfold nucleusParticle.
  rewrite div_num by lia. cbn. rewrite angle_two_pi.
  assert (Hparity : bool_decide (Z.rem index 2 = 0) = Z.even index).
  { rewrite Z.rem_mod_nonneg by lia. rewrite Zeven_mod.
    destruct (Z.eqb_spec (index mod 2) 0) as [Heq|Hne].
    - by rewrite bool_decide_eq_true_2.
    - by rewrite bool_decide_eq_false_2. }
  by rewrite Hparity.
Qed.

Lemma renderNucleusSwarm_defined (protons neutrons : Z) :
  let total := Z.min (protons + neutrons) 28 in
  renderNucleusSwarm protons neutrons =
  Some ((λ index,
           let angle := (num index / num total * (num 2 * Math_PI))%Qc in
           {| NucleusParticle.background :=
                if Z.even index then "#fb7185" else "#38bdf8";
              NucleusParticle.x := (Math_cos angle * num 24)%Qc;
              NucleusParticle.y := (Math_sin angle * num 24)%Qc;
              NucleusParticle.z := (Math_sin (num index) * num 10)%Qc;
              NucleusParticle.animationDelay :=
                (num index * decimal 12 100)%Qc |})
          <$> indices total).
Proof.
  intros total. unfold renderNucleusSwarm. fold total. apply mapM_defined.
  intros index Hindex%elem_of_indices. by apply nucleusParticle_defined.
Qed.

(** C5. For every particle-mist category count, [buildParticleDescriptors]
    yields exactly [min(count, 24)] descriptors (24 for a count of 500), the
    one at [index] at
    [(cos(angle) * 110, sin(angle) * 90, sin(index * 1.5) * 60)] with
    [angle = (index / min(count, 24)) * 2π]; the mist is the descriptors of
    the up quarks, the down quarks and the positrons, in this order. *)
Theorem C5_particle_mist_cap_and_positions :
  (∀ (count : Z) (color : string), 0 ≤ count →
     ∃ descriptors, buildParticleDescriptors count color = Some descriptors ∧
       Z.of_nat (length descriptors) = Z.min count 24 ∧
       ∀ (index : nat) d, descriptors !! index = Some d →
         let angle := (num (Z.of_nat index) / num (Z.min count 24)
                       * (num 2 * Math_PI))%Qc in
         ParticleDescriptor.x d = (Math_cos angle * num 110)%Qc ∧
         ParticleDescriptor.y d = (Math_sin angle * num 90)%Qc ∧
         ParticleDescriptor.z d =
           (Math_sin (num (Z.of_nat index) * decimal 15 10) * num 60)%Qc) ∧
  (∀ color : string,
     ∃ descriptors, buildParticleDescriptors 500 color = Some descriptors ∧
       length descriptors = 24%nat) ∧
  (∀ quarksUp quarksDown positrons : Z,
     ∃ up down posi,
       buildParticleDescriptors quarksUp "#c084fc" = Some up ∧
       buildParticleDescriptors quarksDown "#818cf8" = Some down ∧
       buildParticleDescriptors positrons "#facc15" = Some posi ∧
       ParticleMist quarksUp quarksDown positrons = Some (up ++ down ++ posi)).
Proof.
  split; [|split].
  - intros count color Hcount. eexists.
    split; [apply buildParticleDescriptors_defined|].
    split; [rewrite length_fmap, length_indices; lia|].
    intros index d. rewrite list_lookup_fmap.
    destruct (indices (Z.min count 24) !! index) as [k|] eqn:Hk; [|done].
    apply lookup_indices in Hk as [-> _]. by intros [= <-].
  - intros color. eexists. split; [apply buildParticleDescriptors_defined|].
    by rewrite length_fmap, length_indices.
  - intros quarksUp quarksDown positrons. unfold ParticleMist.
    rewrite !buildParticleDescriptors_defined. by repeat eexists.
Qed.

(** C6. For non-negative proton and neutron counts the nucleus swarm has
    exactly [total = min(protons + neutrons, 28)] markers, never more than
    28; the marker at [index] is styled as a proton when [index] is even
    and as a neutron when it is odd, sits on the ring of radius 24 at angle
    [(index / total) * 2π], and has depth [sin(index) * 10]. *)
Theorem C6_nucleus_swarm (protons neutrons : Z) :
  0 ≤ protons → 0 ≤ neutrons →
  let total := Z.min (protons + neutrons) 28 in
  ∃ markers, renderNucleusSwarm protons neutrons = Some markers ∧
    Z.of_nat (length markers) = total ∧
    (length markers ≤ 28)%nat ∧
    ∀ (index : nat) m, markers !! index = Some m →
      let angle := (num (Z.of_nat index) / num total * (num 2 * Math_PI))%Qc in
      NucleusParticle.background m
        = (if Z.even (Z.of_nat index) then "#fb7185" else "#38bdf8") ∧
      NucleusParticle.x m = (Math_cos angle * num 24)%Qc ∧
      NucleusParticle.y m = (Math_sin angle * num 24)%Qc ∧
      NucleusParticle.z m = (Math_sin (num (Z.of_nat index)) * num 10)%Qc.
Proof.
  intros Hp Hn total. eexists.
  split; [apply renderNucleusSwarm_defined|]. fold total.
  rewrite length_fmap, length_indices.
  split; [lia|]. split; [lia|].
  intros index m. rewrite list_lookup_fmap.
  destruct (indices total !! index) as [k|] eqn:Hk; [|done].
  apply lookup_indices in Hk as [-> _]. by intros [= <-].
Qed.

End arena_proofs.

(** ** [buildIsotope] *)

Lemma buildIsotope_breakdown (element : ElementKey.t) (options : IsotopeOptions.t) :
  let protons := ElementKey.atomicNumber element in
  let neutrons := IsotopeOptions.neutrons options in
  let positrons := default 0 (IsotopeOptions.positrons options) in
  Isotope.particleBreakdown (buildIsotope element options) =
  {| ParticleBreakdown.protons := protons;
     ParticleBreakdown.neutrons := neutrons;
     ParticleBreakdown.electrons := Z.max (protons - positrons) 0;
     ParticleBreakdown.quarks :=
       {| QuarkBreakdown.up := protons * 2 + neutrons;
          QuarkBreakdown.down := protons + neutrons * 2 |};
     ParticleBreakdown.positrons := Some positrons |}.
Proof. done. Qed.

(** Equality of two rationals is decided on their canonical fractions. *)
Lemma number_eq (a b : number) : this a = this b → a = b.
Proof. intros Heq. apply Qc_is_canon. by rewrite Heq. Qed.

Lemma numbers_eq (l l' : list number) : this <$> l = this <$> l' → l = l'.
Proof.
  revert l'. induction l as [|a l IH]; intros [|b l']; try done.
  cbn. intros [= Hab Hll']. f_equal; [by apply number_eq|by apply IH].
Qed.

(** C8, as the code has it.  Carbon-14 of the dataset (6 protons,
    8 neutrons, shells 2 and 4) gets 6 electrons, 20 up quarks, 22 down
    quarks, 0 positrons and a Bohr layout of two rings with 2 and 4 evenly
    spaced electrons; Fluorine-18 (9 protons, 9 neutrons, 1 positron) gets
    8 electrons.  In general the electron count is
    [max(protons - positrons, 0)], which is [protons - positrons] whenever
    [positrons <= protons], whatever the shells are, and the quarks are
    [up = 2 * protons + neutrons], [down = protons + 2 * neutrons]. *)
Theorem C8_isotope_breakdown :
  (Element.isotopes carbon !! 2%nat = Some carbon14 ∧
   Isotope.id carbon14 = "C-14" ∧
   Isotope.name carbon14 = "Carbon-14" ∧
   BohrModel.shells (Isotope.bohrModel carbon14) = [2; 4] ∧
   Isotope.particleBreakdown carbon14 =
     {| ParticleBreakdown.protons := 6;
        ParticleBreakdown.neutrons := 8;
        ParticleBreakdown.electrons := 6;
        ParticleBreakdown.quarks :=
          {| QuarkBreakdown.up := 20; QuarkBreakdown.down := 22 |};
        ParticleBreakdown.positrons := Some 0 |} ∧
   ∃ layout, BohrModelView carbon14 = Some layout ∧
     (λ ring, rotate <$> bohrElectrons ring) <$> bohrShells layout
       = [[num 0; num 180]; [num 0; num 90; num 180; num 270]]) ∧
  (Element.isotopes fluorine !! 1%nat = Some fluorine18 ∧
   Isotope.name fluorine18 = "Fluorine-18" ∧
   BohrModel.shells (Isotope.bohrModel fluorine18) = [2; 7] ∧
   ParticleBreakdown.protons (Isotope.particleBreakdown fluorine18) = 9 ∧
   ParticleBreakdown.neutrons (Isotope.particleBreakdown fluorine18) = 9 ∧
   ParticleBreakdown.positrons (Isotope.particleBreakdown fluorine18) = Some 1 ∧
   ParticleBreakdown.electrons (Isotope.particleBreakdown fluorine18) = 8) ∧
  (∀ (element : ElementKey.t) (options : IsotopeOptions.t),
     let protons := ElementKey.atomicNumber element in
     let neutrons := IsotopeOptions.neutrons options in
     let positrons := default 0 (IsotopeOptions.positrons options) in
     let breakdown := Isotope.particleBreakdown (buildIsotope element options) in
     ParticleBreakdown.electrons breakdown = Z.max (protons - positrons) 0 ∧
     (positrons ≤ protons →
        ParticleBreakdown.electrons breakdown = protons - positrons) ∧
     QuarkBreakdown.up (ParticleBreakdown.quarks breakdown)
       = 2 * protons + neutrons ∧
     QuarkBreakdown.down (ParticleBreakdown.quarks breakdown)
       = protons + 2 * neutrons).
Proof.
  split; [|split].
  - repeat split; try done.
    eexists. split; [apply BohrModelView_defined|].
    cbn. repeat (f_equal; try (apply numbers_eq; vm_compute; reflexivity)).
  - by repeat split.
  - intros element options protons neutrons positrons breakdown.
    unfold breakdown. rewrite buildIsotope_breakdown. cbn.
    fold protons. fold neutrons. fold positrons. repeat split; lia.
Qed.

(** C8 as the specification words it fails: with 1 proton and 2 positrons
    the electron count is 0, not [1 - 2]. *)
Lemma C8_electrons_not_exact_difference :
  let breakdown := Isotope.particleBreakdown (buildIsotope hydrogenKey twoPositrons) in
  ParticleBreakdown.protons breakdown = 1 ∧
  ParticleBreakdown.positrons breakdown = Some 2 ∧
  ParticleBreakdown.electrons breakdown = 0 ∧
  ParticleBreakdown.electrons breakdown ≠ 1 - 2.
Proof. by repeat split. Qed.

(** C10. The electron count of every constructed isotope is
    [max(protons - positrons, 0)]: it is never negative, and it is 0, not
    the difference, when there are more positrons than protons. *)
Theorem C10_electrons_clamped (element : ElementKey.t) (options : IsotopeOptions.t) :
  let breakdown := Isotope.particleBreakdown (buildIsotope element options) in
  let protons := ParticleBreakdown.protons breakdown in
  let positrons := default 0 (ParticleBreakdown.positrons breakdown) in
  protons = ElementKey.atomicNumber element ∧
  positrons = default 0 (IsotopeOptions.positrons options) ∧
  ParticleBreakdown.electrons breakdown = Z.max (protons - positrons) 0 ∧
  0 ≤ ParticleBreakdown.electrons breakdown ∧
  (protons < positrons → ParticleBreakdown.electrons breakdown = 0).
Proof.
  intros breakdown protons positrons. unfold protons, positrons, breakdown.
  rewrite buildIsotope_breakdown. cbn. repeat split; lia.
Qed.

(** ** The lookup routes *)

(** [xs.find(p)] returns the first element that satisfies [p]. *)
Lemma find_first {A} (p : A → bool) (xs : list A) (x : A) :
  find p xs = Some x ↔
  ∃ before after, xs = before ++ x :: after ∧ p x = true ∧
                  ∀ y, y ∈ before → p y = false.
Proof.
  induction xs as [|a xs IH]; cbn.
  - split; [done|]. intros (before & after & Heq & _). by destruct before.
  - destruct (p a) eqn:Hpa.
    + split.
      * intros [= <-]. exists [], xs. repeat split; [done|]. by intros y ?%elem_of_nil.
      * intros (before & after & Heq & Hpx & Hbefore). destruct before as [|b before].
        -- by injection Heq as -> _.
        -- injection Heq as -> _. rewrite Hbefore in Hpa by left. done.
    + rewrite IH. split.
      * intros (before & after & -> & Hpx & Hbefore). exists (a :: before), after.
        repeat split; [done|]. intros y [->|Hy]%elem_of_cons; auto.
      * intros (before & after & Heq & Hpx & Hbefore). destruct before as [|b before].
        -- injection Heq as -> _. congruence.
        -- injection Heq as -> ->. exists before, after.
           repeat split; [done|]. intros y Hy. apply Hbefore. by right.
Qed.

Lemma find_nothing {A} (p : A → bool) (xs : list A) :
  find p xs = None ↔ ∀ y, y ∈ xs → p y = false.
Proof.
  induction xs as [|a xs IH]; cbn.
  - split; [|done]. by intros _ y ?%elem_of_nil.
  - destruct (p a) eqn:Hpa.
    + split; [done|]. intros Hall. rewrite Hall in Hpa by left. done.
    + rewrite IH. split.
      * intros Hall y [->|Hy]%elem_of_cons; auto.
      * intros Hall y Hy. apply Hall. by right.
Qed.

Section routes_proofs.
Context `{StringPrototype}.
Variable elements : list Element.t.

(** C9. Both routes compare the lower-cased symbol, and the isotope route
    the lower-cased id.  On a fresh response, the element route answers 404
    exactly when no element of the dataset has a case-insensitively equal
    symbol, and otherwise sends the first such element with status 200;
    the isotope route answers 404 exactly when no element matches, or the
    first matching element has no isotope with a case-insensitively equal
    id, and otherwise sends that element with its first matching isotope.
    The handlers only build the response: the dataset is read, never
    written. *)
Theorem C9_lookup_not_found (symbol isotopeId : string) :
  let sameSymbol := λ e, toLowerCase (Element.symbol e) = toLowerCase symbol in
  let sameId := λ i, toLowerCase (Isotope.id i) = toLowerCase isotopeId in
  let found := λ e, ∃ before after, elements = before ++ e :: after ∧
                      sameSymbol e ∧ ∀ e', e' ∈ before → ¬ sameSymbol e' in
  let foundIn := λ e i, ∃ before after, Element.isotopes e = before ++ i :: after ∧
                      sameId i ∧ ∀ i', i' ∈ before → ¬ sameId i' in
  let element := getElement elements symbol Response.fresh in
  let isotope := getIsotope elements symbol isotopeId Response.fresh in
  (Response.statusCode element = 404 ↔ ∀ e, e ∈ elements → ¬ sameSymbol e) ∧
  (∀ e, found e →
     Response.statusCode element = 200 ∧
     Response.sent element = Some (JsonElement e)) ∧
  (Response.statusCode isotope = 404 ↔
     (∀ e, e ∈ elements → ¬ sameSymbol e) ∨
     (∃ e, found e ∧ ∀ i, i ∈ Element.isotopes e → ¬ sameId i)) ∧
  (∀ e i, found e → foundIn e i →
     Response.statusCode isotope = 200 ∧
     Response.sent isotope = Some (JsonElementIsotope e i)).
Proof.
  intros sameSymbol sameId found foundIn element isotope.
  set (p := λ item, String.eqb (toLowerCase (Element.symbol item)) (toLowerCase symbol)).
  set (q := λ item, String.eqb (toLowerCase (Isotope.id item)) (toLowerCase isotopeId)).
  assert (Hp : ∀ e, p e = true ↔ sameSymbol e) by (intros e; apply String.eqb_eq).
  assert (Hp' : ∀ e, p e = false ↔ ¬ sameSymbol e) by (intros e; apply String.eqb_neq).
  assert (Hq : ∀ i, q i = true ↔ sameId i) by (intros i; apply String.eqb_eq).
  assert (Hq' : ∀ i, q i = false ↔ ¬ sameId i) by (intros i; apply String.eqb_neq).
  assert (Hfound : ∀ e, find p elements = Some e ↔ found e).
  { intros e. rewrite find_first. unfold found.
    split; intros (before & after & Heq & Hpe & Hbefore); exists before, after;
      (split; [done|]); (split; [by apply Hp|]); intros e' He'; apply Hp'; auto. }
  assert (HfoundIn : ∀ e i, find q (Element.isotopes e) = Some i ↔ foundIn e i).
  { intros e i. rewrite find_first. unfold foundIn.
    split; intros (before & after & Heq & Hqi & Hbefore); exists before, after;
      (split; [done|]); (split; [by apply Hq|]); intros i' Hi'; apply Hq'; auto. }
  assert (Hnone : find p elements = None ↔ ∀ e, e ∈ elements → ¬ sameSymbol e).
  { rewrite find_nothing. split; intros Hall e He; apply Hp'; auto. }
  assert (HnoneIn : ∀ e, find q (Element.isotopes e) = None ↔
                         ∀ i, i ∈ Element.isotopes e → ¬ sameId i).
  { intros e. rewrite find_nothing. split; intros Hall i Hi; apply Hq'; auto. }
  unfold element, isotope, getElement, getIsotope. fold p. fold q.
  split; [|split; [|split]].
  - rewrite <- Hnone. by destruct (find p elements).
  - intros e He%Hfound. by rewrite He.
  - rewrite <- Hnone. destruct (find p elements) as [e|] eqn:He.
    + destruct (find q (Element.isotopes e)) as [i|] eqn:Hi.
      * split; [done|]. intros [?|(e' & He'%Hfound & Hnot%HnoneIn)]; [done|].
        injection He' as <-. by rewrite Hi in Hnot.
      * split; [|done]. intros _. right. exists e. split; [by apply Hfound|].
        by apply HnoneIn.
    + split; [|done]. intros _. by left.
  - intros e i He%Hfound Hi%HfoundIn. by rewrite He, Hi.
Qed.

End routes_proofs.

(** ** Evaluations *)

Example division_by_zero_is_observable : num 1 /? num 0 = None.
Proof. reflexivity. Qed.

Example carbon14_ids : Isotope.id <$> Element.isotopes carbon = ["C-12"; "C-13"; "C-14"].
Proof. reflexivity. Qed.

Example carbon14_bohr_layout :
  ∃ layout, BohrModelView carbon14 = Some layout ∧
    diagramSize layout = 300 ∧
    nucleusSize layout = 72 ∧
    nucleusRadius layout = num 36 ∧
    orbitSpacing layout = num 47 ∧
    width <$> bohrShells layout = [num 166; num 260] ∧
    animationDuration <$> bohrShells layout = [14; 19].
Proof.
  eexists. split; [apply BohrModelView_defined|]. cbn.
  repeat split; try (apply number_eq; reflexivity).
  apply numbers_eq. vm_compute. reflexivity.
Qed.

Example seven_shells_reach_the_cap :
  diagramSize <$> BohrModelView (isotopeWithShells [2; 8; 18; 32; 21; 9; 2]) = Some 480.
Proof. by rewrite BohrModelView_defined. Qed.

Example uranium238_swarm_is_capped :
  length <$> renderNucleusSwarm (H := taylorMath) 92 146 = Some 28%nat.
Proof. by rewrite renderNucleusSwarm_defined. Qed.

Example swarm_colours_alternate :
  (λ markers : list NucleusParticle.t, NucleusParticle.background <$> markers)
    <$> renderNucleusSwarm (H := taylorMath) 1 2
  = Some ["#fb7185"; "#38bdf8"; "#fb7185"].
Proof. by rewrite renderNucleusSwarm_defined. Qed.

Example mist_of_carbon14_has_20_22_0 :
  length <$> arenaMist (H := taylorMath) carbon14 = Some 42%nat.
Proof. vm_compute. reflexivity. Qed.

Example isotope_route_ignores_case :
  Response.sent (getIsotope (H := asciiStrings) [carbon; fluorine] "c" "c-14" Response.fresh)
  = Some (JsonElementIsotope carbon carbon14).
Proof. reflexivity. Qed.

Example isotope_route_unknown_id :
  getIsotope (H := asciiStrings) [carbon; fluorine] "C" "C-15" Response.fresh
  = {| Response.statusCode := 404;
       Response.sent :=
         Some (JsonError "Isotope 'C-15' not found for element 'C'.") |}.
Proof. reflexivity. Qed.

Example element_route_unknown_symbol :
  getElement (H := asciiStrings) [carbon; fluorine] "Xx" Response.fresh
  = {| Response.statusCode := 404;
       Response.sent := Some (JsonError "Element 'Xx' not found.") |}.
Proof. reflexivity. Qed.

(** ** The theorems at concrete inputs *)

Lemma C1_at_carbon14 :
  ∃ layout, BohrModelView carbon14 = Some layout ∧
    orbitSpacing layout =
    ((num (diagramSize layout) / num 2 - num 20 - nucleusRadius layout) / num 2)%Qc.
Proof.
  destruct (C1_nucleus_size_and_orbit_spacing carbon14)
    as (layout & Hview & _ & _ & _ & Hpos & _).
  exists layout. split; [exact Hview|]. apply Hpos. reflexivity.
Defined.

Lemma C2_at_carbon14 :
  ∃ layout ring, BohrModelView carbon14 = Some layout ∧
    bohrShells layout !! 1%nat = Some ring ∧
    animationDuration ring = 19 ∧
    Z.of_nat (length (bohrElectrons ring)) = 4.
Proof.
  destruct (C2_ring_radius_angles_period carbon14)
    as (layout & Hview & _ & Hrings & _).
  destruct (Hrings 1%nat 4 eq_refl) as (ring & Hring & _ & _ & Hperiod & Helectrons).
  destruct (Helectrons ltac:(lia)) as (Hcount & _).
  exists layout, ring. repeat split; assumption.
Defined.

Lemma C3_at_one_and_five_shells :
  ∃ layout layout',
    BohrModelView (isotopeWithShells [1]) = Some layout ∧
    BohrModelView (isotopeWithShells [2; 8; 18; 8; 1]) = Some layout' ∧
    diagramSize layout ≤ diagramSize layout'.
Proof.
  destruct C3_diagram_size_capped_monotone as [Hsize Hmono].
  destruct (Hsize (isotopeWithShells [1])) as (layout & Hview & _).
  destruct (Hsize (isotopeWithShells [2; 8; 18; 8; 1])) as (layout' & Hview' & _).
  exists layout, layout'. split; [exact Hview|]. split; [exact Hview'|].
  apply (Hmono _ _ _ _ Hview Hview'). simpl. lia.
Defined.

Lemma C4_at_no_shells_and_empty_shell :
  (∃ layout, BohrModelView (isotopeWithShells []) = Some layout ∧
     orbitSpacing layout = num 0 ∧ bohrShells layout = []) ∧
  (∃ layout ring, BohrModelView (isotopeWithShells [2; 0; 3]) = Some layout ∧
     bohrShells layout !! 1%nat = Some ring ∧ bohrElectrons ring = []).
Proof.
  destruct C4_degenerate_input_is_safe as (_ & Hnone & Hempty). split.
  - destruct (Hnone (isotopeWithShells []) eq_refl) as (layout & Hview & _ & Hspacing & Hrings).
    exists layout. repeat split; assumption.
  - exact (Hempty (isotopeWithShells [2; 0; 3]) 1%nat eq_refl).
Defined.

Lemma C5_at_500_up_quarks :
  ∃ descriptors,
    buildParticleDescriptors (H := taylorMath) 500 "#c084fc" = Some descriptors ∧
    Z.of_nat (length descriptors) = 24.
Proof.
  destruct (C5_particle_mist_cap_and_positions (H := taylorMath)) as (Hcount & _).
  destruct (Hcount 500 "#c084fc" ltac:(lia)) as (descriptors & Hbuilt & Hlength & _).
  exists descriptors. split; [exact Hbuilt|exact Hlength].
Defined.

Lemma C6_at_carbon14 :
  ∃ markers, renderNucleusSwarm (H := taylorMath) 6 8 = Some markers ∧
    Z.of_nat (length markers) = 14.
Proof.
  destruct (C6_nucleus_swarm (H := taylorMath) 6 8 ltac:(lia) ltac:(lia))
    as (markers & Hswarm & Hlength & _).
  exists markers. split; [exact Hswarm|exact Hlength].
Defined.

Lemma C8_at_fluorine18 :
  ParticleBreakdown.electrons (Isotope.particleBreakdown fluorine18) = 9 - 1.
Proof.
  destruct C8_isotope_breakdown as (_ & _ & Hgeneral).
  unfold fluorine18.
  match goal with
  | |- context [buildIsotope ?element ?options] =>
      destruct (Hgeneral element options) as (_ & Hexact & _)
  end.
  apply Hexact. simpl. lia.
Defined.

Lemma C9_at_lower_case_c :
  let response := getElement (H := asciiStrings) [carbon; fluorine] "c" Response.fresh in
  Response.statusCode response = 200 ∧
  Response.sent response = Some (JsonElement carbon).
Proof.
  destruct (C9_lookup_not_found (H := asciiStrings) [carbon; fluorine] "c" "c-14")
    as (_ & Hfound & _).
  apply Hfound. exists [], [fluorine].
  split; [reflexivity|]. split; [reflexivity|].
  intros e' He'. inversion He'.
Defined.

Lemma C10_at_two_positrons :
  ParticleBreakdown.electrons
    (Isotope.particleBreakdown (buildIsotope hydrogenKey twoPositrons)) = 0.
Proof.
  destruct (C10_electrons_clamped hydrogenKey twoPositrons) as (_ & _ & _ & _ & Hzero).
  apply Hzero. simpl. lia.
Defined.

(** * Further properties of the code *)

(** ** Strings: [includes] is the substring relation *)

Lemma append_assoc (a b c : string) : (a +:+ b) +:+ c = a +:+ (b +:+ c).
Proof.
  induction a as [|x a IH]; [done|].
  change (String x ((a +:+ b) +:+ c) = String x (a +:+ (b +:+ c))). by rewrite IH.
Qed.

Lemma startsWith_spec (s search : string) :
  startsWith s search = true ↔ ∃ after, s = search +:+ after.
Proof.
  revert s. induction search as [|c search IH]; intros s.
  - cbn. split; [|done]. intros _. by exists s.
  - destruct s as [|d s]; cbn.
    + split; [done|]. by intros [after ?].
    + rewrite andb_true_iff, IH. split.
      * intros [->%Ascii.eqb_eq [after ->]]. by exists after.
      * intros [after [= -> ->]]. split; [apply Ascii.eqb_refl|by exists after].
Qed.

Lemma includes_spec (s search : string) :
  includes s search = true ↔ ∃ before after, s = before +:+ search +:+ after.
Proof.
  induction s as [|d s IH]; cbn.
  - rewrite orb_false_r, startsWith_spec. split.
    + intros [after ->]. by exists "", after.
    + intros (before & after & Heq). destruct before; [by exists after|done].
  - rewrite orb_true_iff, startsWith_spec, IH. split.
    + intros [[after ->]|(before & after & ->)].
      * by exists "", after.
      * by exists (String d before), after.
    + intros ([|c before] & after & Heq).
      * left. by exists after.
      * right. injection Heq as -> ->. by exists before, after.
Qed.

Lemma includes_trans (s middle search : string) :
  includes s middle = true → includes middle search = true →
  includes s search = true.
Proof.
  rewrite !includes_spec. intros (a & b & ->) (c & d & ->).
  exists (a +:+ c), (d +:+ b). by rewrite !append_assoc.
Qed.

(** ** [pickPalette] *)

Section palette_proofs.
Context `{StringPrototype}.

(** X1. Elements of category "post-transition metal" never get their own
    palette: the key "transition metal" is visited first and occurs in
    every text that contains "post-transition metal", so the last entry of
    the table is returned for no category at all. *)
Theorem pickPalette_never_post_transition (category : string) (palette : Palette.t) :
  (("post-transition metal", palette) ∈ categoryPalette →
   pickPalette category ≠ palette) ∧
  (includes (toLowerCase category) "post-transition metal" = true →
   ∃ key, key ≠ "post-transition metal" ∧
          (key, pickPalette category) ∈ categoryPalette).
Proof.
  assert (Hshadow : includes (toLowerCase category) "post-transition metal" = true →
                    includes (toLowerCase category) "transition metal" = true).
  { intros Hpost. by apply (includes_trans _ _ _ Hpost). }
  unfold pickPalette, categoryPalette. cbn [pickPaletteFrom]. split.
  - intros Hin.
    repeat (apply elem_of_cons in Hin as [Heq|Hin];
            [first [discriminate Heq | injection Heq as ->]|]);
      [|by apply elem_of_nil in Hin].
    repeat (match goal with
            | |- context [includes ?s ?k] => destruct (includes s k) eqn:?
            end; try done).
    by specialize (Hshadow eq_refl).
  - intros Hpost. rewrite (Hshadow Hpost).
    repeat (match goal with
            | |- context [if includes ?s ?k then _ else _] =>
                destruct (includes s k) eqn:?
            end;
            [eexists; split; [|repeat first [by left | right]]; done|]).
    eexists; split; [|repeat first [by left | right]]; done.
Qed.

(** X2. The default palette is returned exactly when none of the table's
    keys occurs in the lower-cased category; otherwise the palette is the
    one of the first key of the table that occurs in it. *)
Theorem pickPalette_default_iff (category : string) :
  let lower := toLowerCase category in
  (pickPalette category = defaultPalette ↔
   ∀ key palette, (key, palette) ∈ categoryPalette → includes lower key = false) ∧
  (∀ earlier key palette later,
     categoryPalette = earlier ++ (key, palette) :: later →
     includes lower key = true →
     (∀ entry, entry ∈ earlier → includes lower entry.1 = false) →
     pickPalette category = palette).
Proof.
  intros lower. unfold pickPalette. fold lower. split.
  - assert (Hdistinct : ∀ key palette,
              (key, palette) ∈ categoryPalette → palette ≠ defaultPalette).
    { intros key palette Hin. unfold categoryPalette in Hin.
      repeat (apply elem_of_cons in Hin as [[= -> ->]|Hin]; [done|]).
      by apply elem_of_nil in Hin. }
    revert Hdistinct. generalize categoryPalette as table.
    induction table as [|[key palette] table IH]; intros Hdistinct; cbn.
    + split; [|done]. by intros _ key palette ?%elem_of_nil.
    + destruct (includes lower key) eqn:Hkey.
      * split.
        -- intros Heq. exfalso. apply (Hdistinct key palette); [by left|done].
        -- intros Hnone. rewrite (Hnone key palette) in Hkey by left. done.
      * rewrite IH by (intros k p Hin; apply (Hdistinct k p); by right). split.
        -- intros Hnone k p [[= -> ->]|Hin]%elem_of_cons; eauto.
        -- intros Hnone k p Hin. apply (Hnone k p). by right.
  - intros earlier key palette later -> Hkey Hearlier.
    induction earlier as [|[k p] earlier IH]; cbn.
    + by rewrite Hkey.
    + assert (Hk : includes lower k = false) by (apply (Hearlier (k, p)); left).
      rewrite Hk. apply IH.
      intros entry Hentry. apply Hearlier. by right.
Qed.

End palette_proofs.

(** ** Order on numbers *)

Lemma num_pos (z : Z) : 0 < z → (0 < num z)%Qc.
Proof.
  intros Hz. unfold num. rewrite <- Z2Qc_inj_0.
  exact (proj1 (Z2Qc_inj_lt 0 z) Hz).
Qed.

Lemma num_lt (a b : Z) : a < b → (num a < num b)%Qc.
Proof. exact (proj1 (Z2Qc_inj_lt a b)). Qed.

Lemma num_le (a b : Z) : a ≤ b → (num a ≤ num b)%Qc.
Proof. exact (proj1 (Z2Qc_inj_le a b)). Qed.

Lemma quotient_pos (a : number) (n : Z) :
  (0 < a)%Qc → 0 < n → (0 < a / num n)%Qc.
Proof.
  intros Ha Hn. unfold Qcdiv. apply Qcmult_pos_pos; [done|].
  by apply Qcinv_pos, num_pos.
Qed.

(** ** Rings spread evenly over a span

    Both views place ring [k] (counting from 1) at
    [inner + span / n * k]: the radii grow strictly with [k], stay above
    [inner], and the last one is exactly [inner + span]. *)

Section even_rings.
Variables (inner span : number) (n : Z).
Hypothesis span_pos : (0 < span)%Qc.
Hypothesis n_pos : 0 < n.

Lemma ring_radius_lt (k k' : Z) :
  k < k' → (inner + span / num n * num k < inner + span / num n * num k')%Qc.
Proof.
  intros Hk. apply Qcplus_lt_mono_l.
  apply Qcmult_lt_mono_pos_l; [by apply quotient_pos|by apply num_lt].
Qed.

Lemma ring_radius_le (k k' : Z) :
  k ≤ k' → (inner + span / num n * num k ≤ inner + span / num n * num k')%Qc.
Proof.
  intros Hk. apply Qcplus_le_mono_l.
  apply Qcmult_le_mono_nonneg_l; [|by apply num_le].
  by apply Qclt_le_weak, quotient_pos.
Qed.

Lemma ring_radius_first : (inner + span / num n * num 0)%Qc = inner.
Proof. unfold num at 2. rewrite Z2Qc_inj_0. ring. Qed.

Lemma ring_radius_last : (inner + span / num n * num n)%Qc = (inner + span)%Qc.
Proof. field. apply num_nonzero. lia. Qed.

End even_rings.

(** ** [BohrModelView]: the rings lie between the nucleus and the margin *)

Lemma bohr_span_positive (count : Z) :
  let size := Z.min 480 (300 + Z.max (count - 3) 0 * 48) in
  let nucleus := Z.min 120 (Z.max 72 (54 + count * 6)) in
  (num size / num 2 - num 20 - num nucleus / num 2)%Qc
    = (num (size - 40 - nucleus) / num 2)%Qc ∧
  (0 < num size / num 2 - num 20 - num nucleus / num 2)%Qc.
Proof.
  intros size nucleus.
  assert (Heq : (num size / num 2 - num 20 - num nucleus / num 2)%Qc
                = (num (size - 40 - nucleus) / num 2)%Qc).
  { replace (size - 40 - nucleus) with (size - 20 * 2 - nucleus) by lia.
    unfold num. rewrite !Z2Qc_inj_sub, Z2Qc_inj_mul. field.
    by apply (num_nonzero 2). }
  split; [done|]. rewrite Heq. apply quotient_pos; [|lia].
  apply num_pos. lia.
Qed.

(** X3. In the Bohr view every ring lies strictly outside the nucleus and
    inside the diagram with a margin of 20 on each side: its width is more
    than [nucleusSize] and at most [diagramSize - 40]; widths grow strictly
    from one shell to the next, and the outermost ring is exactly
    [diagramSize - 40] wide. *)
Theorem bohr_rings_fit_the_diagram (isotope : Isotope.t) (layout : BohrLayout) :
  BohrModelView isotope = Some layout →
  (∀ (i : nat) ring, bohrShells layout !! i = Some ring →
     (num (nucleusSize layout) < width ring)%Qc ∧
     (width ring ≤ num (diagramSize layout - 40))%Qc) ∧
  (∀ (i j : nat) ri rj, (i < j)%nat →
     bohrShells layout !! i = Some ri → bohrShells layout !! j = Some rj →
     (width ri < width rj)%Qc) ∧
  (∀ ring, last (bohrShells layout) = Some ring →
     width ring = num (diagramSize layout - 40)).
Proof.
  intros Hview.
  pose proof (BohrModelView_length _ _ Hview) as Hlength.
  destruct (BohrModelView_constants _ _ Hview) as (_ & Hsize & Hnucleus & Hradius & Hspacing).
  set (shells := BohrModel.shells (Isotope.bohrModel isotope)) in *.
  set (n := Z.of_nat (length shells)) in *.
  destruct (bohr_span_positive n) as [Hspan Hpos].
  rewrite <- Hsize, <- Hnucleus in Hspan, Hpos.
  set (span := (num (diagramSize layout) / num 2 - num 20
                - num (nucleusSize layout) / num 2)%Qc) in *.
  assert (Hwidth : ∀ (i : nat) ring, bohrShells layout !! i = Some ring →
            0 < n ∧ Z.of_nat i < n ∧
            width ring = ((nucleusRadius layout
                           + span / num n * num (Z.of_nat i + 1)) * num 2)%Qc).
  { intros i ring Hring. pose proof (lookup_lt_Some _ _ _ Hring) as Hi.
    rewrite Hlength in Hi. fold shells in Hi.
    destruct (lookup_lt_is_Some_2 shells i Hi) as [count Hcount].
    rewrite (BohrModelView_ring _ _ _ _ Hview Hcount) in Hring.
    injection Hring as <-. cbn. split; [lia|]. split; [lia|].
    rewrite Hspacing. destruct (decide (n > 0)); [|lia]. by rewrite Hradius. }
  assert (Htwice : (0 < num 2)%Qc) by (by apply num_pos).
  assert (Hinner : (nucleusRadius layout * num 2)%Qc = num (nucleusSize layout)).
  { rewrite Hradius. field. by apply (num_nonzero 2). }
  assert (Houter : ((nucleusRadius layout + span) * num 2)%Qc
                   = num (diagramSize layout - 40)).
  { rewrite Hspan, Hradius.
    replace (diagramSize layout - 40)
      with ((diagramSize layout - 40 - nucleusSize layout) + nucleusSize layout) at 2 by lia.
    unfold num at 6. rewrite Z2Qc_inj_add. fold (num (nucleusSize layout)).
    fold (num (diagramSize layout - 40 - nucleusSize layout)).
    field. by apply (num_nonzero 2). }
  split; [|split].
  - intros i ring Hring. destruct (Hwidth i ring Hring) as (Hn & Hi & ->). split.
    + rewrite <- Hinner.
      apply Qcmult_lt_mono_pos_r; [done|].
      rewrite <- (ring_radius_first (nucleusRadius layout) span n) at 1.
      apply ring_radius_lt; [done|done|lia].
    + rewrite <- Houter.
      apply Qcmult_le_mono_pos_r; [done|].
      rewrite <- (ring_radius_last (nucleusRadius layout) span n) by done.
      apply ring_radius_le; [done|done|lia].
  - intros i j ri rj Hij Hi Hj.
    destruct (Hwidth i ri Hi) as (Hn & _ & ->).
    destruct (Hwidth j rj Hj) as (_ & _ & ->).
    apply Qcmult_lt_mono_pos_r; [done|].
    apply ring_radius_lt; [done|done|lia].
  - intros ring Hlast. rewrite last_lookup in Hlast.
    destruct (Hwidth _ ring Hlast) as (Hn & _ & ->).
    rewrite Hlength. fold shells.
    replace (Z.of_nat (Nat.pred (length shells)) + 1) with n by lia.
    rewrite ring_radius_last by done. apply Houter.
Qed.

(** ** [IsotopeVisualizer] *)

Lemma quantumElectrons_defined (radius : number) (n : Z) :
  mapM (quantumElectron radius n) (indices n) =
  Some ((λ k, {| QuantumElectron.rotate := (num 360 / num n * num k)%Qc;
                 QuantumElectron.translateX := radius |}) <$> indices n).
Proof.
  apply mapM_defined. intros k Hk%elem_of_indices.
  unfold quantumElectron. by rewrite div_num by lia.
Qed.

Lemma quantumOrbit_defined (shells : list Z) (i : nat) (radius : number) :
  quantumOrbit shells (Z.of_nat i, radius) =
  Some {| QuantumOrbit.width := (radius * num 2)%Qc;
          QuantumOrbit.height := (radius * num 2)%Qc;
          QuantumOrbit.animationDuration := 18 + Z.of_nat i * 6;
          QuantumOrbit.electrons :=
            match shells !! i with
            | Some n =>
                (λ k, {| QuantumElectron.rotate := (num 360 / num n * num k)%Qc;
                         QuantumElectron.translateX := radius |}) <$> indices n
            | None => []
            end |}.
Proof.
  unfold quantumOrbit. rewrite Nat2Z.id.
  destruct (shells !! i) as [n|]; [|done]. by rewrite quantumElectrons_defined.
Qed.

Lemma Math_min_le_l (a b : number) : (Math_min a b ≤ a)%Qc.
Proof.
  unfold Math_min. destruct (decide (a ≤ b)%Qc) as [Hle|Hgt]; [done|].
  by apply Qclt_le_weak, Qclt_nge.
Qed.

Lemma Math_min_r (a b : number) : (b ≤ a)%Qc → Math_min a b = b.
Proof.
  intros Hle. unfold Math_min. destruct (decide (a ≤ b)%Qc); [|done].
  by apply Qcle_antisym.
Qed.

Section visualizer_proofs.
Context `{MathObject}.

Lemma ParticleMist_length (quarksUp quarksDown positrons : Z) :
  ∃ mist, ParticleMist quarksUp quarksDown positrons = Some mist ∧
    length mist = (Z.to_nat (Z.min quarksUp 24) + Z.to_nat (Z.min quarksDown 24)
                   + Z.to_nat (Z.min positrons 24))%nat.
Proof.
  unfold ParticleMist. rewrite !buildParticleDescriptors_defined. cbn.
  eexists. split; [done|].
  rewrite !length_app, !length_fmap, !length_indices. lia.
Qed.

Lemma renderNucleusSwarm_length (protons neutrons : Z) :
  ∃ swarm, renderNucleusSwarm protons neutrons = Some swarm ∧
    length swarm = Z.to_nat (Z.min (protons + neutrons) 28).
Proof.
  rewrite renderNucleusSwarm_defined. eexists. split; [done|].
  by rewrite length_fmap, length_indices.
Qed.

(** The arena exists for every isotope, with these constants and orbits. *)
Lemma IsotopeVisualizer_defined (isotope : Isotope.t) :
  let breakdown := Isotope.particleBreakdown isotope in
  let shells := BohrModel.shells (Isotope.bohrModel isotope) in
  let n := Z.of_nat (length shells) in
  let stage := Z.min 460 (360 + Z.max (n - 3) 0 * 42) in
  let nucleus :=
    Math_min (num 150)
      (num 120 + num (Z.min (ParticleBreakdown.protons breakdown) 60)
                 * decimal 35 100)%Qc in
  let nr := (nucleus / num 2)%Qc in
  let os := if decide (n > 0)
            then ((num stage / num 2 - nr - num 36) / num n)%Qc else num 0 in
  ∃ arena, IsotopeVisualizer isotope = Some arena ∧
    QuantumArena.stageSize arena = stage ∧
    QuantumArena.arenaHeight arena = stage + 100 ∧
    QuantumArena.nucleusSize arena = nucleus ∧
    QuantumArena.nucleusRadius arena = nr ∧
    QuantumArena.orbitSpacing arena = os ∧
    renderNucleusSwarm (ParticleBreakdown.protons breakdown)
                       (ParticleBreakdown.neutrons breakdown)
      = Some (QuantumArena.swarm arena) ∧
    arenaMist isotope = Some (QuantumArena.mist arena) ∧
    QuantumArena.orbits arena =
      imap (λ i count,
              let radius := (nr + os * num (Z.of_nat i + 1))%Qc in
              {| QuantumOrbit.width := (radius * num 2)%Qc;
                 QuantumOrbit.height := (radius * num 2)%Qc;
                 QuantumOrbit.animationDuration := 18 + Z.of_nat i * 6;
                 QuantumOrbit.electrons :=
                   (λ k, {| QuantumElectron.rotate :=
                              (num 360 / num count * num k)%Qc;
                            QuantumElectron.translateX := radius |})
                     <$> indices count |}) shells.
Proof.
  intros breakdown shells n stage nucleus nr os.
  destruct (renderNucleusSwarm_length (ParticleBreakdown.protons breakdown)
              (ParticleBreakdown.neutrons breakdown)) as (swarm & Hswarm & _).
  destruct (ParticleMist_length
              (QuarkBreakdown.up (ParticleBreakdown.quarks breakdown))
              (QuarkBreakdown.down (ParticleBreakdown.quarks breakdown))
              (default 0 (ParticleBreakdown.positrons breakdown)))
    as (mist & Hmist & _).
  set (radii := imap (λ (index : nat) (_ : Z),
                        (nr + os * num (Z.of_nat index + 1))%Qc) shells).
  assert (Horbits : mapM (quantumOrbit shells) (entries radii) =
            Some (imap (λ i count,
              let radius := (nr + os * num (Z.of_nat i + 1))%Qc in
              {| QuantumOrbit.width := (radius * num 2)%Qc;
                 QuantumOrbit.height := (radius * num 2)%Qc;
                 QuantumOrbit.animationDuration := 18 + Z.of_nat i * 6;
                 QuantumOrbit.electrons :=
                   (λ k, {| QuantumElectron.rotate :=
                              (num 360 / num count * num k)%Qc;
                            QuantumElectron.translateX := radius |})
                     <$> indices count |}) shells)).
  { apply mapM_Some, Forall2_same_length_lookup. split.
    - unfold radii. by rewrite length_entries, !length_imap.
    - intros i entry orbit. rewrite lookup_entries. unfold radii.
      rewrite !list_lookup_imap.
      destruct (shells !! i) as [count|] eqn:Hcount; [|done].
      cbn. intros [= <-] [= <-]. by rewrite quantumOrbit_defined, Hcount. }
  eexists. split.
  - unfold IsotopeVisualizer.
    fold breakdown. fold shells. fold n. fold stage. fold nucleus.
    rewrite !(div_num _ 2) by done. cbn. fold nr.
    match goal with
    | |- ?spacing ≫= _ = _ => assert (Hos : spacing = Some os)
    end.
    { unfold os. destruct (decide (n > 0)); [|done]. by rewrite div_num by lia. }
    rewrite Hos. cbn. rewrite Hswarm. cbn. fold radii.
    rewrite Horbits. cbn. rewrite Hmist. cbn. reflexivity.
  - cbn. unfold arenaMist. fold breakdown. by rewrite Hmist.
Qed.

End visualizer_proofs.

Lemma decimal_nonneg (n : Z) (d : positive) : 0 ≤ n → (0 ≤ decimal n d)%Qc.
Proof.
  intros Hn. unfold decimal, Qcle. cbn. rewrite !Qred_correct.
  unfold Qle. cbn. lia.
Qed.

Lemma arena_nucleus_below_cap (protons : Z) :
  (num 120 + num (Z.min protons 60) * decimal 35 100 ≤ num 141)%Qc.
Proof.
  replace (num 141) with (num 120 + num 60 * decimal 35 100)%Qc
    by (apply number_eq; reflexivity).
  apply Qcplus_le_mono_l, Qcmult_le_mono_nonneg_r; [by apply decimal_nonneg|].
  apply num_le. lia.
Qed.

Section arena_geometry.
Context `{MathObject}.

(** X4. The arena is rendered for every isotope, whatever its counts are
    (no division by zero is evaluated), and its cost is bounded: at most
    28 nucleus markers and 72 mist particles, one orbit per shell, a stage
    between 360 and 460 wide in a box 100 higher. *)
Theorem arena_is_defined_and_bounded (isotope : Isotope.t) :
  ∃ arena, IsotopeVisualizer isotope = Some arena ∧
    (length (QuantumArena.swarm arena) ≤ 28)%nat ∧
    (length (QuantumArena.mist arena) ≤ 72)%nat ∧
    length (QuantumArena.orbits arena)
      = length (BohrModel.shells (Isotope.bohrModel isotope)) ∧
    360 ≤ QuantumArena.stageSize arena ≤ 460 ∧
    QuantumArena.arenaHeight arena = QuantumArena.stageSize arena + 100.
Proof.
  destruct (IsotopeVisualizer_defined isotope)
    as (arena & Harena & Hstage & Hheight & _ & _ & _ & Hswarm & Hmist & Horbits).
  exists arena. split; [done|].
  destruct (renderNucleusSwarm_length
              (ParticleBreakdown.protons (Isotope.particleBreakdown isotope))
              (ParticleBreakdown.neutrons (Isotope.particleBreakdown isotope)))
    as (swarm & Hswarm' & Hswarm_length).
  rewrite Hswarm in Hswarm'. injection Hswarm' as <-.
  unfold arenaMist in Hmist.
  destruct (ParticleMist_length
      (QuarkBreakdown.up (ParticleBreakdown.quarks (Isotope.particleBreakdown isotope)))
      (QuarkBreakdown.down (ParticleBreakdown.quarks (Isotope.particleBreakdown isotope)))
      (default 0 (ParticleBreakdown.positrons (Isotope.particleBreakdown isotope))))
    as (mist & Hmist' & Hmist_length).
  cbn in Hmist. rewrite Hmist in Hmist'. injection Hmist' as <-.
  rewrite Hswarm_length, Hmist_length, Horbits, length_imap, Hheight, Hstage.
  repeat split; lia.
Qed.

(** X5. The nucleus of the arena is [120 + 0.35 * min(protons, 60)] wide:
    the outer [Math.min(150, ...)] never selects 150, the width is at most
    141 and equals 141 from 60 protons on. *)
Theorem arena_nucleus_never_reaches_cap (isotope : Isotope.t) :
  let protons := ParticleBreakdown.protons (Isotope.particleBreakdown isotope) in
  ∃ arena, IsotopeVisualizer isotope = Some arena ∧
    QuantumArena.nucleusSize arena
      = (num 120 + num (Z.min protons 60) * decimal 35 100)%Qc ∧
    (QuantumArena.nucleusSize arena ≤ num 141)%Qc ∧
    (QuantumArena.nucleusSize arena < num 150)%Qc ∧
    (60 ≤ protons → QuantumArena.nucleusSize arena = num 141).
Proof.
  intros protons.
  destruct (IsotopeVisualizer_defined isotope) as (arena & Harena & _ & _ & Hsize & _).
  exists arena. split; [done|]. fold protons in Hsize.
  pose proof (arena_nucleus_below_cap protons) as Hbelow.
  assert (Hcap : (num 141 < num 150)%Qc) by (by apply num_lt).
  rewrite Math_min_r in Hsize
    by (by apply Qclt_le_weak, (Qcle_lt_trans _ (num 141))).
  rewrite Hsize. repeat split; [done|by apply (Qcle_lt_trans _ (num 141))|].
  intros Hprotons. rewrite Z.min_r by done. apply number_eq. reflexivity.
Qed.

Lemma arena_span_positive (stage : Z) (nucleus : number) :
  360 ≤ stage → (nucleus ≤ num 150)%Qc →
  ((nucleus / num 2 + (num stage / num 2 - nucleus / num 2 - num 36)) * num 2)%Qc
    = num (stage - 72) ∧
  (0 < num stage / num 2 - nucleus / num 2 - num 36)%Qc.
Proof.
  intros Hstage Hnucleus.
  assert (Htwo : num 2 ≠ 0%Qc) by (by apply (num_nonzero 2)).
  assert (Hsub : num (stage - 72) = (num stage - num 36 * num 2)%Qc).
  { replace (stage - 72) with (stage - 36 * 2) by lia.
    unfold num. by rewrite Z2Qc_inj_sub, Z2Qc_inj_mul. }
  split; [rewrite Hsub; by field|].
  replace (num stage / num 2 - nucleus / num 2 - num 36)%Qc
    with ((num (stage - 72) + - nucleus) / num 2)%Qc by (rewrite Hsub; by field).
  apply quotient_pos; [|lia].
  apply (proj1 (Qclt_minus_iff nucleus (num (stage - 72)))).
  apply (Qcle_lt_trans _ (num 150)); [done|]. apply num_lt. lia.
Qed.

(** X6. In the arena every orbit lies strictly outside the nucleus and
    inside the stage with a margin of 36 on each side: its width is more
    than [nucleusSize] and at most [stageSize - 72]; widths grow strictly
    from one shell to the next, and the outermost orbit is exactly
    [stageSize - 72] wide. *)
Theorem arena_orbits_fit_the_stage (isotope : Isotope.t) (arena : QuantumArena.t) :
  IsotopeVisualizer isotope = Some arena →
  (∀ (i : nat) orbit, QuantumArena.orbits arena !! i = Some orbit →
     (QuantumArena.nucleusSize arena < QuantumOrbit.width orbit)%Qc ∧
     (QuantumOrbit.width orbit ≤ num (QuantumArena.stageSize arena - 72))%Qc) ∧
  (∀ (i j : nat) oi oj, (i < j)%nat →
     QuantumArena.orbits arena !! i = Some oi →
     QuantumArena.orbits arena !! j = Some oj →
     (QuantumOrbit.width oi < QuantumOrbit.width oj)%Qc) ∧
  (∀ orbit, last (QuantumArena.orbits arena) = Some orbit →
     QuantumOrbit.width orbit = num (QuantumArena.stageSize arena - 72)).
Proof.
  intros Hview.
  destruct (IsotopeVisualizer_defined isotope)
    as (arena' & Harena & Hstage & _ & Hsize & Hradius & Hspacing & _ & _ & Horbits).
  rewrite Hview in Harena. injection Harena as <-.
  rewrite <- Hsize, <- Hstage in Horbits. clear Hradius Hspacing.
  set (shells := BohrModel.shells (Isotope.bohrModel isotope)) in *.
  set (n := Z.of_nat (length shells)) in *.
  set (stage := QuantumArena.stageSize arena) in *.
  set (nucleus := QuantumArena.nucleusSize arena) in *.
  assert (Hcap : (nucleus ≤ num 150)%Qc) by (rewrite Hsize; apply Math_min_le_l).
  destruct (arena_span_positive stage nucleus) as [Houter Hpos]; [lia|done|].
  set (span := (num stage / num 2 - nucleus / num 2 - num 36)%Qc) in *.
  assert (Htwice : (0 < num 2)%Qc) by (by apply num_pos).
  assert (Hinner : (nucleus / num 2 * num 2)%Qc = nucleus).
  { field. by apply (num_nonzero 2). }
  assert (Hwidth : ∀ (i : nat) orbit, QuantumArena.orbits arena !! i = Some orbit →
            0 < n ∧ Z.of_nat i < n ∧
            QuantumOrbit.width orbit
              = ((nucleus / num 2 + span / num n * num (Z.of_nat i + 1)) * num 2)%Qc).
  { intros i orbit. rewrite Horbits, list_lookup_imap_Some.
    intros (count & Hcount & ->). pose proof (lookup_lt_Some _ _ _ Hcount) as Hi.
    cbn. split; [lia|]. split; [lia|].
    by destruct (decide (n > 0)); [|lia]. }
  split; [|split].
  - intros i orbit Horbit. destruct (Hwidth i orbit Horbit) as (Hn & Hi & ->). split.
    + rewrite <- Hinner at 1.
      apply Qcmult_lt_mono_pos_r; [done|].
      rewrite <- (ring_radius_first (nucleus / num 2)%Qc span n) at 1.
      apply ring_radius_lt; [done|done|lia].
    + rewrite <- Houter.
      apply Qcmult_le_mono_pos_r; [done|].
      rewrite <- (ring_radius_last (nucleus / num 2)%Qc span n) by done.
      apply ring_radius_le; [done|done|lia].
  - intros i j oi oj Hij Hi Hj.
    destruct (Hwidth i oi Hi) as (Hn & _ & ->).
    destruct (Hwidth j oj Hj) as (_ & _ & ->).
    apply Qcmult_lt_mono_pos_r; [done|].
    apply ring_radius_lt; [done|done|lia].
  - intros orbit Hlast. rewrite last_lookup in Hlast.
    destruct (Hwidth _ orbit Hlast) as (Hn & _ & ->).
    rewrite Horbits, length_imap. fold shells.
    replace (Z.of_nat (Nat.pred (length shells)) + 1) with n by lia.
    rewrite ring_radius_last by done. apply Houter.
Qed.

(** X7. The two views agree on the electrons: for every shell, the ring of
    the Bohr view and the orbit of the arena carry the same number of
    electrons at the same angles; the orbit of shell [i] turns slower than
    the ring, by [4 + i] seconds. *)
Theorem views_agree_on_electrons (isotope : Isotope.t)
    (layout : BohrLayout) (arena : QuantumArena.t) :
  BohrModelView isotope = Some layout →
  IsotopeVisualizer isotope = Some arena →
  length (bohrShells layout) = length (QuantumArena.orbits arena) ∧
  ∀ (i : nat) ring orbit,
    bohrShells layout !! i = Some ring →
    QuantumArena.orbits arena !! i = Some orbit →
    rotate <$> bohrElectrons ring
      = QuantumElectron.rotate <$> QuantumOrbit.electrons orbit ∧
    QuantumOrbit.animationDuration orbit = animationDuration ring + 4 + Z.of_nat i.
Proof.
  intros Hbohr Hview.
  destruct (IsotopeVisualizer_defined isotope)
    as (arena' & Harena & _ & _ & _ & _ & _ & _ & _ & Horbits).
  rewrite Hview in Harena. injection Harena as <-.
  split.
  - by rewrite (BohrModelView_length _ _ Hbohr), Horbits, length_imap.
  - intros i ring orbit Hring. rewrite Horbits, list_lookup_imap_Some.
    intros (count & Hcount & ->).
    rewrite (BohrModelView_ring _ _ _ _ Hbohr Hcount) in Hring.
    injection Hring as <-. cbn. split; [|lia].
    by rewrite <- !list_fmap_compose.
Qed.

End arena_geometry.

(** ** What the layouts read from the isotope *)


(** ** [buildQuarks] and the isotope id *)

(** X8. The quark counts of a constructed isotope are three per nucleon,
    and they determine the proton and neutron counts: two isotopes with the
    same quark breakdown have the same protons and neutrons. *)
Theorem quarks_determine_the_nucleus (element element' : ElementKey.t)
    (options options' : IsotopeOptions.t) :
  let breakdown := Isotope.particleBreakdown (buildIsotope element options) in
  let breakdown' := Isotope.particleBreakdown (buildIsotope element' options') in
  let quarks := ParticleBreakdown.quarks breakdown in
  QuarkBreakdown.up quarks + QuarkBreakdown.down quarks
    = 3 * (ParticleBreakdown.protons breakdown + ParticleBreakdown.neutrons breakdown) ∧
  2 * QuarkBreakdown.up quarks - QuarkBreakdown.down quarks
    = 3 * ParticleBreakdown.protons breakdown ∧
  2 * QuarkBreakdown.down quarks - QuarkBreakdown.up quarks
    = 3 * ParticleBreakdown.neutrons breakdown ∧
  (quarks = ParticleBreakdown.quarks breakdown' →
   ParticleBreakdown.protons breakdown = ParticleBreakdown.protons breakdown' ∧
   ParticleBreakdown.neutrons breakdown = ParticleBreakdown.neutrons breakdown').
Proof.
  intros breakdown breakdown' quarks. unfold quarks, breakdown, breakdown'.
  rewrite !buildIsotope_breakdown. cbn.
  split; [lia|]. split; [lia|]. split; [lia|].
  intros [= Hup Hdown]. lia.
Qed.

(** X9. Two isotopes built for the same element have the same id exactly
    when they have the same neutron count. *)
Theorem isotope_id_identifies_neutrons (element : ElementKey.t)
    (options options' : IsotopeOptions.t) :
  Isotope.id (buildIsotope element options) = Isotope.id (buildIsotope element options')
  ↔ IsotopeOptions.neutrons options = IsotopeOptions.neutrons options'.
Proof.
  cbn. split.
  - intros Hid. apply String.app_inj in Hid. apply String.app_inj in Hid.
    apply pretty_Z_inj in Hid. lia.
  - by intros ->.
Qed.

(** ** How the two lookup routes relate *)

Section routes_composition.
Context `{StringPrototype}.
Variable elements : list Element.t.

(** X10. The isotope route answers about the element that the element
    route finds: when the element route answers with its 404, the isotope
    route gives the very same response; when the isotope route sends an
    element and an isotope, the element route sends that element, the
    isotope is one of its isotopes with a case-insensitively equal id, and
    the status is left as it was. *)
Theorem isotope_route_extends_element_route (symbol isotopeId : string)
    (res : Response.t) :
  ((∀ e, e ∈ elements → toLowerCase (Element.symbol e) ≠ toLowerCase symbol) →
   getIsotope elements symbol isotopeId res = getElement elements symbol res) ∧
  (∀ e i,
     Response.sent (getIsotope elements symbol isotopeId res)
       = Some (JsonElementIsotope e i) →
     getElement elements symbol res = Response.json (JsonElement e) res ∧
     e ∈ elements ∧
     i ∈ Element.isotopes e ∧
     toLowerCase (Isotope.id i) = toLowerCase isotopeId ∧
     Response.statusCode (getIsotope elements symbol isotopeId res)
       = Response.statusCode res).
Proof.
  unfold getIsotope, getElement.
  set (p := λ item, String.eqb (toLowerCase (Element.symbol item)) (toLowerCase symbol)).
  set (q := λ item, String.eqb (toLowerCase (Isotope.id item)) (toLowerCase isotopeId)).
  split.
  - intros Hnone. assert (Hfind : find p elements = None).
    { apply find_nothing. intros e He. by apply String.eqb_neq, Hnone. }
    by rewrite Hfind.
  - intros e i. destruct (find p elements) as [e'|] eqn:He'; [|done].
    destruct (find q (Element.isotopes e')) as [i'|] eqn:Hi'; [|done].
    cbn. intros [= -> ->].
    apply find_first in He' as (before & after & Helements & _ & _).
    apply find_first in Hi' as (before' & after' & Hisotopes & Hid%String.eqb_eq & _).
    repeat split; [| |done].
    + rewrite Helements. apply elem_of_app. right. by left.
    + rewrite Hisotopes. apply elem_of_app. right. by left.
Qed.

(** X11. Every isotope of the dataset can be fetched by its own names, in
    any letter case: if no other element has a case-insensitively equal
    symbol, the isotope route answers 200 with the element and one of its
    isotopes whose id is case-insensitively equal; if moreover no other
    isotope of the element has such an id, it is the isotope asked for. *)
Theorem every_isotope_is_reachable (e : Element.t) (i : Isotope.t)
    (symbol isotopeId : string) :
  e ∈ elements → i ∈ Element.isotopes e →
  toLowerCase symbol = toLowerCase (Element.symbol e) →
  toLowerCase isotopeId = toLowerCase (Isotope.id i) →
  (∀ e', e' ∈ elements →
     toLowerCase (Element.symbol e') = toLowerCase (Element.symbol e) → e' = e) →
  let response := getIsotope elements symbol isotopeId Response.fresh in
  Response.statusCode response = 200 ∧
  (∃ i', Response.sent response = Some (JsonElementIsotope e i') ∧
         i' ∈ Element.isotopes e ∧
         toLowerCase (Isotope.id i') = toLowerCase (Isotope.id i)) ∧
  ((∀ i', i' ∈ Element.isotopes e →
      toLowerCase (Isotope.id i') = toLowerCase (Isotope.id i) → i' = i) →
   Response.sent response = Some (JsonElementIsotope e i)).
Proof.
  intros He Hi Hsymbol Hid Hunique response. unfold response, getIsotope.
  rewrite Hsymbol, Hid.
  set (p := λ item, String.eqb (toLowerCase (Element.symbol item))
                               (toLowerCase (Element.symbol e))).
  set (q := λ item, String.eqb (toLowerCase (Isotope.id item))
                               (toLowerCase (Isotope.id i))).
  destruct (find p elements) as [e'|] eqn:He'.
  - apply find_first in He' as (before & after & Helements & Hp%String.eqb_eq & _).
    assert (e' = e) as ->.
    { apply Hunique; [|done]. rewrite Helements. apply elem_of_app. right. by left. }
    destruct (find q (Element.isotopes e)) as [i'|] eqn:Hi'.
    + apply find_first in Hi' as (before' & after' & Hisotopes & Hq%String.eqb_eq & _).
      assert (Hin : i' ∈ Element.isotopes e).
      { rewrite Hisotopes. apply elem_of_app. right. by left. }
      cbn. split; [done|]. split; [by exists i'|].
      intros Hunique'. by rewrite (Hunique' i' Hin Hq).
    + exfalso. rewrite find_nothing in Hi'. specialize (Hi' i Hi).
      unfold q in Hi'. by rewrite String.eqb_refl in Hi'.
  - exfalso. rewrite find_nothing in He'. specialize (He' e He).
    unfold p in He'. by rewrite String.eqb_refl in He'.
Qed.

(** X12. The letter case of the request parameters does not matter: two
    requests whose parameters are equal after lower-casing get the same
    status and, when an isotope is found, the same element and isotope;
    only the text of a 404 message repeats the parameters as given. *)
Theorem routes_ignore_letter_case (symbol symbol' isotopeId isotopeId' : string)
    (res : Response.t) :
  toLowerCase symbol = toLowerCase symbol' →
  toLowerCase isotopeId = toLowerCase isotopeId' →
  let response := getIsotope elements symbol isotopeId res in
  let response' := getIsotope elements symbol' isotopeId' res in
  Response.statusCode response = Response.statusCode response' ∧
  (∀ e i, Response.sent response = Some (JsonElementIsotope e i) →
          response' = response) ∧
  Response.statusCode (getElement elements symbol res)
    = Response.statusCode (getElement elements symbol' res) ∧
  (∀ e, Response.sent (getElement elements symbol res) = Some (JsonElement e) →
        getElement elements symbol' res = getElement elements symbol res).
Proof.
  intros Hsymbol Hid response response'.
  unfold response, response', getIsotope, getElement. rewrite <- Hsymbol, <- Hid.
  destruct (find _ elements) as [e|]; [|done].
  destruct (find _ (Element.isotopes e)) as [i|]; done.
Qed.

End routes_composition.

(** ** The nucleus swarm shows the nucleon number only *)

Lemma seqZ_snoc (t : nat) : seqZ 0 (Z.of_nat (S t)) = seqZ 0 (Z.of_nat t) ++ [Z.of_nat t].
Proof.
  replace (Z.of_nat (S t)) with (Z.of_nat t + 1) by lia.
  rewrite seqZ_app by lia. by f_equal.
Qed.

Lemma count_by_parity {A} (f : Z → A) (P : A → Prop) `{!∀ x, Decision (P x)}
    (parity : bool) (t : nat) :
  (∀ k, 0 ≤ k → P (f k) ↔ Z.even k = parity) →
  Z.of_nat (length (filter P (f <$> seqZ 0 (Z.of_nat t))))
    = (Z.of_nat t + (if parity then 1 else 0)) / 2.
Proof.
  intros HP. induction t as [|t IH].
  - by destruct parity.
  - rewrite seqZ_snoc, fmap_app, filter_app, length_app, Nat2Z.inj_add, IH.
    cbn [fmap list_fmap]. rewrite filter_singleton; [|exact []].
    pose proof (HP (Z.of_nat t) ltac:(lia)) as Ht.
    pose proof (Zeven_mod (Z.of_nat t)) as Hmod.
    destruct (decide (P (f (Z.of_nat t)))) as [Hyes|Hno].
    + apply Ht in Hyes. rewrite Hyes in Hmod. cbn [length].
      destruct parity; [apply eq_sym, Z.eqb_eq in Hmod|apply eq_sym, Z.eqb_neq in Hmod];
        Z.div_mod_to_equations; lia.
    + assert (Hother : Z.even (Z.of_nat t) = negb parity).
      { destruct (Z.even (Z.of_nat t)), parity; try done; exfalso; by apply Hno, Ht. }
      rewrite Hother in Hmod. cbn [length].
      destruct parity; [apply eq_sym, Z.eqb_neq in Hmod|apply eq_sym, Z.eqb_eq in Hmod];
        Z.div_mod_to_equations; lia.
Qed.

Section swarm_counts.
Context `{MathObject}.

(** X13. The swarm shows the nucleon number, not the nucleus: it is the
    same for all proton and neutron counts with the same capped sum
    [min(protons + neutrons, 28)], and of its markers the half rounded up
    is styled as protons and the half rounded down as neutrons, whatever
    the true counts are. *)
Theorem swarm_shows_nucleon_number_only (protons neutrons : Z) :
  let total := Z.max 0 (Z.min (protons + neutrons) 28) in
  (∀ protons' neutrons',
     Z.min (protons' + neutrons') 28 = Z.min (protons + neutrons) 28 →
     renderNucleusSwarm protons' neutrons' = renderNucleusSwarm protons neutrons) ∧
  ∃ markers, renderNucleusSwarm protons neutrons = Some markers ∧
    Z.of_nat (length markers) = total ∧
    Z.of_nat (length (filter (λ m, NucleusParticle.background m = "#fb7185") markers))
      = (total + 1) / 2 ∧
    Z.of_nat (length (filter (λ m, NucleusParticle.background m = "#38bdf8") markers))
      = total / 2.
Proof.
  intros total. split.
  - intros protons' neutrons' Hsum. unfold renderNucleusSwarm. by rewrite Hsum.
  - eexists. split; [apply renderNucleusSwarm_defined|].
    assert (Hindices : indices (Z.min (protons + neutrons) 28)
                       = seqZ 0 (Z.of_nat (Z.to_nat total))).
    { unfold indices, total. destruct (decide (0 ≤ Z.min (protons + neutrons) 28)).
      - by rewrite Z.max_r, Z2Nat.id by lia.
      - rewrite Z.max_l by lia. by rewrite seqZ_nil by lia. }
    rewrite Hindices. split; [rewrite length_fmap, length_seqZ; lia|]. split.
    + rewrite (count_by_parity _ _ true).
      * rewrite Z2Nat.id by lia. done.
      * intros k Hk. cbn. by destruct (Z.even k).
    + rewrite (count_by_parity _ _ false).
      * rewrite Z2Nat.id by lia. by rewrite Z.add_0_r.
      * intros k Hk. cbn. by destruct (Z.even k).
Qed.

End swarm_counts.

(** ** Constants of the Bohr view *)

(** X14. The constants of the Bohr view are bounded and saturate:
    [diagramSize] stays in 300..480 and [nucleusSize] in 72..120; up to
    three shells they are 300 and 72, from seven shells on the diagram is
    480 wide, from eleven shells on the nucleus is 120 wide; the nucleus
    always leaves more than the margin of 20 on each side. *)
Theorem bohr_constants_saturate (isotope : Isotope.t) (layout : BohrLayout) :
  BohrModelView isotope = Some layout →
  let n := Z.of_nat (length (BohrModel.shells (Isotope.bohrModel isotope))) in
  300 ≤ diagramSize layout ≤ 480 ∧
  72 ≤ nucleusSize layout ≤ 120 ∧
  (n ≤ 3 → diagramSize layout = 300 ∧ nucleusSize layout = 72) ∧
  (7 ≤ n → diagramSize layout = 480) ∧
  (11 ≤ n → nucleusSize layout = 120) ∧
  nucleusSize layout + 40 < diagramSize layout.
Proof.
  intros Hview n.
  destruct (BohrModelView_constants _ _ Hview) as (_ & Hsize & Hnucleus & _).
  fold n in Hsize, Hnucleus. lia.
Qed.

(** ** The state of the table *)

Section table_proofs.
Context `{ArrayPrototype}.

(** X15. In every state the component can reach, the modal is coherent with
    the table: the active element is one of the loaded elements, the active
    isotope is one of the active element's isotopes, and the modal is shown
    only while the grid is shown, so never while loading and never after a
    failed load. *)
Theorem modal_is_coherent (state : Table.State) :
  Table.reachable state →
  (∀ e, Table.activeElement state = Some e → e ∈ Table.elements state) ∧
  (∀ i, Table.activeIsotope state = Some i →
     ∃ e, Table.activeElement state = Some e ∧ i ∈ Element.isotopes e) ∧
  (Table.modalShown state = true → Table.gridShown state = true).
Proof.
  intros Hreach.
  cut ((Table.gridShown state = false →
        Table.activeElement state = None ∧ Table.activeIsotope state = None) ∧
       (∀ e, Table.activeElement state = Some e → e ∈ Table.elements state) ∧
       (∀ i, Table.activeIsotope state = Some i →
          ∃ e, Table.activeElement state = Some e ∧ i ∈ Element.isotopes e)).
  { intros (Hhidden & Helement & Hisotope). repeat split; [done|done|].
    unfold Table.modalShown. destruct (Table.gridShown state); [done|].
    by destruct (Hhidden eq_refl) as [-> _]. }
  induction Hreach as [|state event Hreach (Hhidden & Helement & Hisotope) Hoffered].
  - by repeat split.
  - destruct event as [data|message|element| |isotope]; cbn in Hoffered |- *.
    + assert (Hgrid : Table.gridShown state = false)
        by (unfold Table.gridShown; by rewrite Hoffered).
      destruct (Hhidden Hgrid) as [-> ->]. by repeat split.
    + assert (Hgrid : Table.gridShown state = false)
        by (unfold Table.gridShown; by rewrite Hoffered).
      destruct (Hhidden Hgrid) as [-> ->]. by repeat split.
    + destruct Hoffered as [Hgrid Hin]. unfold Table.gridShown in *. cbn.
      split; [by rewrite Hgrid|]. split; [by intros e [= <-]|].
      intros i Hi. exists element. split; [done|].
      by apply list_elem_of_lookup_2 in Hi.
    + by repeat split.
    + destruct Hoffered as (Hmodal & element & Hactive & Hin).
      unfold Table.gridShown in *. cbn. split; [|split].
      * intros Hgrid. destruct (Hhidden Hgrid) as [Hnone _]. congruence.
      * done.
      * intros i [= <-]. by exists element.
Qed.

(** Clicking a tile opens the modal on the element's first isotope, and
    opens nothing for an element without isotopes; closing the modal hides
    it and changes neither the table nor the load status. *)
Lemma tile_click_opens_first_isotope (state : Table.State) (element : Element.t) :
  let clicked := Table.handle (Table.TileClick element) state in
  let closed := Table.handle Table.ModalClose state in
  (Table.modalShown clicked = true ↔ Element.isotopes element ≠ []) ∧
  (∀ first rest, Element.isotopes element = first :: rest →
     Table.activeElement clicked = Some element ∧
     Table.activeIsotope clicked = Some first) ∧
  Table.modalShown closed = false ∧
  Table.gridShown closed = Table.gridShown state ∧
  Table.elements closed = Table.elements state.
Proof.
  cbn. unfold Table.modalShown. cbn.
  destruct (Element.isotopes element) as [|first rest]; cbn.
  - by repeat split.
  - split; [done|]. split; [|done]. by intros ?? [= <- <-].
Qed.

End table_proofs.

(** ** The further properties at concrete inputs *)

Example post_transition_metal_gets_transition_palette :
  Palette.accent (pickPalette (H := asciiStrings) "post-transition metal") = "#374151".
Proof. reflexivity. Qed.

Example actinide_gets_default_palette :
  pickPalette (H := asciiStrings) "actinide" = defaultPalette.
Proof. reflexivity. Qed.

Example uranium238_arena_constants :
  ∃ arena, IsotopeVisualizer (H := taylorMath) uranium238 = Some arena ∧
    QuantumArena.stageSize arena = 460 ∧
    QuantumArena.arenaHeight arena = 560 ∧
    QuantumArena.nucleusSize arena = num 141 ∧
    length (QuantumArena.swarm arena) = 28%nat ∧
    length (QuantumArena.mist arena) = 48%nat.
Proof.
  destruct (IsotopeVisualizer_defined (H := taylorMath) uranium238)
    as (arena & Harena & Hstage & Hheight & Hsize & _ & _ & Hswarm & Hmist & _).
  exists arena. split; [done|]. rewrite Hstage, Hheight, Hsize.
  repeat split; try (apply number_eq; reflexivity).
  - destruct (renderNucleusSwarm_length (H := taylorMath) 92 146)
      as (swarm & Hswarm' & Hlength).
    pose proof (eq_trans (eq_sym Hswarm) Hswarm') as Heq.
    injection Heq as ->. exact Hlength.
  - destruct (ParticleMist_length (H := taylorMath) 330 384 0)
      as (mist & Hmist' & Hlength).
    pose proof (eq_trans (eq_sym Hmist) Hmist') as Heq.
    injection Heq as ->. exact Hlength.
Qed.

Lemma pickPalette_at_post_transition_metal :
  ∃ key, key ≠ "post-transition metal" ∧
    (key, pickPalette (H := asciiStrings) "Post-Transition Metal") ∈ categoryPalette.
Proof.
  apply (proj2 (pickPalette_never_post_transition (H := asciiStrings)
                  "Post-Transition Metal" defaultPalette)).
  reflexivity.
Defined.

Lemma pickPalette_at_actinide :
  pickPalette (H := asciiStrings) "Actinide" = defaultPalette.
Proof.
  apply (proj2 (proj1 (pickPalette_default_iff (H := asciiStrings) "Actinide"))).
  intros key palette Hin. unfold categoryPalette in Hin.
  repeat (apply elem_of_cons in Hin as [Heq|Hin];
          [injection Heq as -> ->; reflexivity|]).
  by apply elem_of_nil in Hin.
Defined.

Lemma bohr_rings_fit_at_carbon14 :
  ∃ layout, BohrModelView carbon14 = Some layout ∧
    ∀ ring, last (bohrShells layout) = Some ring →
      width ring = num (diagramSize layout - 40).
Proof.
  destruct (BohrModelView_total carbon14) as [layout Hview].
  exists layout. split; [exact Hview|].
  exact (proj2 (proj2 (bohr_rings_fit_the_diagram carbon14 layout Hview))).
Defined.

Lemma arena_nucleus_at_uranium238 :
  ∃ arena, IsotopeVisualizer (H := taylorMath) uranium238 = Some arena ∧
    QuantumArena.nucleusSize arena = num 141.
Proof.
  destruct (arena_nucleus_never_reaches_cap (H := taylorMath) uranium238)
    as (arena & Harena & _ & _ & _ & Hheavy).
  exists arena. split; [exact Harena|]. apply Hheavy. simpl. lia.
Defined.

Lemma arena_orbits_fit_at_uranium238 :
  ∃ arena, IsotopeVisualizer (H := taylorMath) uranium238 = Some arena ∧
    ∀ orbit, last (QuantumArena.orbits arena) = Some orbit →
      QuantumOrbit.width orbit = num (QuantumArena.stageSize arena - 72).
Proof.
  destruct (arena_is_defined_and_bounded (H := taylorMath) uranium238)
    as (arena & Harena & _).
  exists arena. split; [exact Harena|].
  exact (proj2 (proj2 (arena_orbits_fit_the_stage (H := taylorMath)
                         uranium238 arena Harena))).
Defined.

Lemma views_agree_at_uranium238 :
  ∃ layout arena,
    BohrModelView uranium238 = Some layout ∧
    IsotopeVisualizer (H := taylorMath) uranium238 = Some arena ∧
    length (bohrShells layout) = length (QuantumArena.orbits arena).
Proof.
  destruct (BohrModelView_total uranium238) as [layout Hlayout].
  destruct (arena_is_defined_and_bounded (H := taylorMath) uranium238)
    as (arena & Harena & _).
  exists layout, arena. split; [exact Hlayout|]. split; [exact Harena|].
  exact (proj1 (views_agree_on_electrons (H := taylorMath)
                  uranium238 layout arena Hlayout Harena)).
Defined.

Lemma quarks_at_carbon12_and_carbon14 :
  ParticleBreakdown.quarks (Isotope.particleBreakdown carbon12)
    ≠ ParticleBreakdown.quarks (Isotope.particleBreakdown carbon14).
Proof.
  intros Hquarks. unfold carbon12, carbon14 in Hquarks.
  match type of Hquarks with
  | context [buildIsotope ?e ?o] =>
      match type of Hquarks with
      | _ = ParticleBreakdown.quarks (Isotope.particleBreakdown (buildIsotope ?e' ?o')) =>
          destruct (quarks_determine_the_nucleus e e' o o') as (_ & _ & _ & Hsame)
      end
  end.
  destruct (Hsame Hquarks) as [_ Hneutrons]. simpl in Hneutrons. lia.
Defined.

Lemma isotope_ids_at_carbon12_and_carbon14 :
  Isotope.id carbon12 ≠ Isotope.id carbon14.
Proof.
  intros Hid. unfold carbon12, carbon14 in Hid.
  apply isotope_id_identifies_neutrons in Hid. simpl in Hid. lia.
Defined.

Lemma isotope_route_at_unknown_element :
  getIsotope (H := asciiStrings) [carbon; fluorine] "Xx" "Xx-1" Response.fresh
  = getElement (H := asciiStrings) [carbon; fluorine] "Xx" Response.fresh.
Proof.
  apply (proj1 (isotope_route_extends_element_route (H := asciiStrings)
                  [carbon; fluorine] "Xx" "Xx-1" Response.fresh)).
  intros e He. repeat (apply elem_of_cons in He as [->|He]; [discriminate|]).
  by apply elem_of_nil in He.
Defined.

Lemma fluorine18_is_reachable :
  Response.sent
    (getIsotope (H := asciiStrings) [carbon; fluorine] "f" "f-18" Response.fresh)
  = Some (JsonElementIsotope fluorine fluorine18).
Proof.
  apply (every_isotope_is_reachable (H := asciiStrings) [carbon; fluorine]
           fluorine fluorine18 "f" "f-18").
  - right. left.
  - right. left.
  - reflexivity.
  - reflexivity.
  - intros e' He'. repeat (apply elem_of_cons in He' as [->|He']; [|]).
    + intros Hsymbol. discriminate Hsymbol.
    + reflexivity.
    + by apply elem_of_nil in He'.
  - intros i' Hi'. repeat (apply elem_of_cons in Hi' as [->|Hi']; [|]).
    + intros Hid. discriminate Hid.
    + reflexivity.
    + by apply elem_of_nil in Hi'.
Defined.

Lemma routes_ignore_case_at_carbon14 :
  Response.statusCode
    (getIsotope (H := asciiStrings) [carbon; fluorine] "c" "c-14" Response.fresh)
  = Response.statusCode
      (getIsotope (H := asciiStrings) [carbon; fluorine] "C" "C-14" Response.fresh).
Proof.
  apply (routes_ignore_letter_case (H := asciiStrings) [carbon; fluorine]
           "c" "C" "c-14" "C-14" Response.fresh); reflexivity.
Defined.

Lemma swarm_at_carbon14_and_nitrogen14 :
  renderNucleusSwarm (H := taylorMath) 7 7 = renderNucleusSwarm (H := taylorMath) 6 8.
Proof.
  apply (proj1 (swarm_shows_nucleon_number_only (H := taylorMath) 6 8)).
  reflexivity.
Defined.

Lemma bohr_constants_at_uranium238 :
  ∃ layout, BohrModelView uranium238 = Some layout ∧ diagramSize layout = 480.
Proof.
  destruct (BohrModelView_total uranium238) as [layout Hview].
  exists layout. split; [exact Hview|].
  destruct (bohr_constants_saturate uranium238 layout Hview) as (_ & _ & _ & Hseven & _).
  apply Hseven. simpl. lia.
Defined.

Lemma modal_is_coherent_after_click :
  let state :=
    Table.handle (H := insertionSort) (Table.TileClick carbon)
      (Table.handle (H := insertionSort) (Table.FetchResolved [fluorine; carbon])
         Table.initial) in
  Table.elements state = [carbon; fluorine] ∧
  Table.activeIsotope state = Some carbon12 ∧
  Table.gridShown state = true.
Proof.
  intros state.
  assert (Hreach : Table.reachable (H := insertionSort) state).
  { apply Table.reachable_step; [apply Table.reachable_step|].
    - apply Table.reachable_initial.
    - reflexivity.
    - split; [reflexivity|]. left. }
  destruct (modal_is_coherent (H := insertionSort) state Hreach) as (_ & _ & Hgrid).
  split; [reflexivity|]. split; [reflexivity|]. apply Hgrid. reflexivity.
Defined.

